(** * The call relay of the inspection voice bot

    A shallow embedding of [mainn.py] (the telephony/AI-session relay, its
    tool dispatcher and the post-call summarizer) and of [db.py] (the user
    directory), with the properties of the specification proved over it.

    Conventions of the embedding.
    - A Python [str] is a Rocq [string] (its bytes); binary data ([bytes])
      is a [list ascii].
    - A value decoded by [json.loads], or a dict/list literal of the relay,
      is a [json] term; a dict is an association list in insertion order.
    - The relay runs in a state-and-exception monad [M]: the state is the
      [world] (session store, both sockets, the log, the record of the
      collaborator calls), and an exception keeps the state reached when
      it was raised, as in Python.
    - The collaborators (scheduling, product search, directory backend,
      document pipeline, clock) and Python's JSON codec are interfaces,
      given as type classes; each external call consumes one tick of a
      logical counter, so that a collaborator may answer differently at
      each call. *)

From Stdlib Require Import ZArith NArith List String Ascii Bool Lia DecimalString.
From stdpp Require Import base option gmap strings.
Import ListNotations.

Set Warnings "-register-all".

Local Open Scope string_scope.
Local Open Scope list_scope.

(** ** Base64, as [base64.b64encode] and [base64.b64decode] compute it *)

Module Base64.

Local Open Scope N_scope.

(** [binascii]'s table from a 6-bit value to its character. *)
Definition table_b2a (i : N) : ascii :=
  if i <? 26 then ascii_of_N (i + 65)
  else if i <? 52 then ascii_of_N (i + 71)
  else if i <? 62 then ascii_of_N (i - 4)
  else if i =? 62 then "+"%char
  else "/"%char.

(** [binascii]'s table from a character to its 6-bit value; [None] for a
    character outside the alphabet. *)
Definition table_a2b (c : ascii) : option N :=
  let n := N_of_ascii c in
  if (65 <=? n) && (n <=? 90) then Some (n - 65)
  else if (97 <=? n) && (n <=? 122) then Some (n - 71)
  else if (48 <=? n) && (n <=? 57) then Some (n + 4)
  else if n =? 43 then Some 62
  else if n =? 47 then Some 63
  else None.

Definition PAD : ascii := "="%char.

(** [b64encode]: three bytes give four characters; one or two trailing
    bytes give two or three characters and the padding. *)
Fixpoint b64encode (data : list ascii) : list ascii :=
  match data with
  | [] => []
  | [a] =>
      let x := N_of_ascii a in
      [table_b2a (x / 4); table_b2a ((x mod 4) * 16); PAD; PAD]
  | [a; b] =>
      let x := N_of_ascii a in
      let y := N_of_ascii b in
      [table_b2a (x / 4); table_b2a ((x mod 4) * 16 + y / 16);
       table_b2a ((y mod 16) * 4); PAD]
  | a :: b :: c :: rest =>
      let x := N_of_ascii a in
      let y := N_of_ascii b in
      let z := N_of_ascii c in
      table_b2a (x / 4) :: table_b2a ((x mod 4) * 16 + y / 16)
        :: table_b2a ((y mod 16) * 4 + z / 64) :: table_b2a (z mod 64)
        :: b64encode rest
  end.

(** The decoder of [binascii.a2b_base64] in its default, non-strict mode:
    characters outside the alphabet are skipped, a padding sequence that
    completes a quad ends the input, and data that stops inside a quad is
    an error. *)
Record a2b_state := {
  quad_pos : nat;
  leftchar : N;
  pads : nat;
  bin_data : list ascii   (* the output so far *)
}.

Definition a2b_init : a2b_state :=
  {| quad_pos := 0; leftchar := 0; pads := 0; bin_data := [] |}.

Definition a2b_data (v : N) (st : a2b_state) : a2b_state :=
  match quad_pos st with
  | 0%nat => {| quad_pos := 1; leftchar := v; pads := 0; bin_data := bin_data st |}
  | 1%nat => {| quad_pos := 2; leftchar := v mod 16; pads := 0;
                bin_data := bin_data st ++ [ascii_of_N (leftchar st * 4 + v / 16)] |}
  | 2%nat => {| quad_pos := 3; leftchar := v mod 4; pads := 0;
                bin_data := bin_data st ++ [ascii_of_N (leftchar st * 16 + v / 4)] |}
  | _ => {| quad_pos := 0; leftchar := 0; pads := 0;
            bin_data := bin_data st ++ [ascii_of_N (leftchar st * 64 + v)] |}
  end.

Fixpoint a2b_loop (input : list ascii) (st : a2b_state) : option (list ascii) :=
  match input with
  | [] => if Nat.eqb (quad_pos st) 0 then Some (bin_data st) else None
  | ch :: rest =>
      if Ascii.eqb ch PAD then
        if Nat.leb 2 (quad_pos st) then
          if Nat.leb 4 (quad_pos st + S (pads st)) then Some (bin_data st)
          else a2b_loop rest {| quad_pos := quad_pos st; leftchar := leftchar st;
                                pads := S (pads st); bin_data := bin_data st |}
        else a2b_loop rest st
      else
        match table_a2b ch with
        | None => a2b_loop rest st
        | Some v => a2b_loop rest (a2b_data v st)
        end
  end.

(** [b64decode] of a [str]: the text is first encoded to ASCII, which fails
    on a character above 127. *)
Definition is_ascii (c : ascii) : bool := N_of_ascii c <? 128.

Definition b64decode (s : list ascii) : option (list ascii) :=
  if forallb is_ascii s then a2b_loop s a2b_init else None.

End Base64.

(** ** Python values *)

(** A value decoded by [json.loads], or built by the relay as a dict or
    list literal. [JFloat] carries a float by its literal: the only floats
    of the relay are its own constants (the sampling temperature), the
    frames decoded from the two sockets are taken to hold none. *)
Inductive json : Type :=
| JNull
| JBool (b : bool)
| JInt (z : Z)
| JFloat (lit : string)
| JStr (s : string)
| JList (items : list json)
| JDict (fields : list (string * json)).

(** Lookup of a key in a dict: the first binding wins (a Python dict holds
    a key once). *)
Fixpoint assoc {A} (key : string) (fields : list (string * A)) : option A :=
  match fields with
  | [] => None
  | (k, v) :: rest => if String.eqb k key then Some v else assoc key rest
  end.

(** Python's truth value of an object, as [if x:] and [not x] test it. *)
Definition truthy (v : json) : bool :=
  match v with
  | JNull => false
  | JBool b => b
  | JInt z => negb (Z.eqb z 0)
  | JFloat _ => true
  | JStr s => negb (String.eqb s "")
  | JList items => match items with [] => false | _ => true end
  | JDict fields => match fields with [] => false | _ => true end
  end.

(** Booleans count as the integers 0 and 1 in comparisons and sums. *)
Definition num_of (v : json) : option Z :=
  match v with
  | JBool b => Some (if b then 1 else 0)%Z
  | JInt z => Some z
  | _ => None
  end.

(** Python's [==]: structural, numbers by value, dicts regardless of the
    order of their keys. *)
Fixpoint py_eq (a b : json) : bool :=
  match a, b with
  | JNull, JNull => true
  | JStr s, JStr t => String.eqb s t
  | JFloat s, JFloat t => String.eqb s t
  | JList l, JList m =>
      (fix all2 (l m : list json) : bool :=
         match l, m with
         | [], [] => true
         | x :: l', y :: m' => py_eq x y && all2 l' m'
         | _, _ => false
         end) l m
  | JDict d, JDict e =>
      Nat.eqb (length d) (length e) &&
      (fix sub (d : list (string * json)) : bool :=
         match d with
         | [] => true
         | (k, v) :: d' =>
             match assoc k e with
             | Some w => py_eq v w && sub d'
             | None => false
             end
         end) d
  | _, _ =>
      match num_of a, num_of b with
      | Some x, Some y => Z.eqb x y
      | _, _ => false
      end
  end.

(** [v == 'text'] for a string constant. *)
Definition is_str (v : json) (text : string) : bool :=
  match v with
  | JStr s => String.eqb s text
  | _ => false
  end.

(** Lists and dicts are unhashable: they cannot be keys of a dict. *)
Definition hashable (v : json) : bool :=
  match v with
  | JList _ | JDict _ => false
  | _ => true
  end.

(** [str.lower()], on the ASCII letters. *)
Definition lower_char (c : ascii) : ascii :=
  let n := N_of_ascii c in
  if (N.leb 65 n && N.leb n 90)%bool then ascii_of_N (n + 32) else c.

Fixpoint lower (s : string) : string :=
  match s with
  | EmptyString => EmptyString
  | String c rest => String (lower_char c) (lower rest)
  end.

(** [needle in hay] for two strings. *)
Fixpoint is_substring (needle hay : string) : bool :=
  String.prefix needle hay ||
  match hay with
  | EmptyString => false
  | String _ rest => is_substring needle rest
  end.

(** ** Exceptions *)

(** The classes of exception the relay meets; all derive from
    [Exception]. *)
Inductive exn_class :=
| KeyError | TypeError | AttributeError | ValueError | JSONDecodeError
| BinasciiError | ConnectionClosed | OtherError.

(** An instance of [Exception]: its class and [str(e)]. *)
Record failure := { cls : exn_class; text : string }.

(** What can be raised: an [Exception], or [asyncio.CancelledError] (a
    [BaseException]), which only an [await] raises. *)
Inductive exn :=
| Failure (f : failure)
| CancelledError.

Definition error (c : exn_class) (t : string) : exn :=
  Failure {| cls := c; text := t |}.

(** [str(e)] *)
Definition exn_text (e : exn) : string :=
  match e with
  | Failure f => text f
  | CancelledError => ""
  end.

(** [except Exception] catches everything but [asyncio.CancelledError]. *)
Definition is_Exception (e : exn) : bool :=
  match e with Failure _ => true | CancelledError => false end.

Definition is_ConnectionClosed (e : exn) : bool :=
  match e with
  | Failure f => match cls f with ConnectionClosed => true | _ => false end
  | CancelledError => false
  end.

Definition is_CancelledError (e : exn) : bool :=
  match e with CancelledError => true | Failure _ => false end.

(** What a synchronous call to the outside does: it returns a value or
    raises an [Exception]. *)
Inductive outcome (A : Type) :=
| Returns (a : A)
| Raises (f : failure).
Arguments Returns {A} a.
Arguments Raises {A} f.

(** What an [await] on a socket gives: a message, or an exception. *)
Inductive arrival :=
| Arrives (message : string)
| Breaks (e : exn).

(** ** The interfaces the relay is written against *)

(** Python's JSON codec and its formatting of a value inside an f-string. *)
Class Codec := {
  json_loads : string -> option json;   (* [None]: [json.JSONDecodeError] *)
  json_dumps : json -> string;
  py_str : json -> string
}.

(** The outside world. Every field takes the tick at which it is asked.

    - [clock] is [time.time()].
    - The three scheduling functions stand for the module
      [google_calender], which [mainn.py] imports.
    - [rag_pipeline] is the embedding, vector query and summarization that
      [realtime_tools.search_product_database] wraps in its [try].
    - [supabase_select] and [supabase_insert] are the two queries of
      [db.py] on the table [registration_form].
    - [gemini_generate], [pdf_pipeline], [plivo_template] and [plivo_text]
      are what the functions of [tools.py] and [tools_two.py] wrap. *)
Class Collaborators := {
  clock : nat -> Z;
  get_available_slots_reply : nat -> json;
  is_slot_available_reply : nat -> json -> bool;
  book_slot_reply : nat -> json -> json -> json;
  rag_pipeline : nat -> json -> outcome string;
  supabase_select : nat -> string -> string -> outcome (list json);
  supabase_insert : nat -> json -> outcome unit;
  gemini_generate : nat -> string -> outcome string;
  pdf_pipeline : nat -> string -> outcome (option string);
  plivo_template : nat -> string -> string -> string -> outcome unit;
  plivo_text : nat -> string -> string -> outcome unit
}.

(** ** The data model of a call *)

(** An entry of [transcriptions]: [{'text': ..., 'complete': ...}]. *)
Record transcription := {
  t_text : json;
  t_complete : bool
}.

(** An entry of [assistant_responses]. *)
Record assistant_response := {
  ar_item_id : json;
  ar_text : json;
  ar_timestamp : Z
}.

(** An entry of [function_calls]. *)
Record function_call := {
  fc_type : string;
  fc_timestamp : Z;
  fc_args : json;
  fc_result : json;
  fc_item_id : json
}.

(** An entry of [appointments]. *)
Record appointment := {
  ap_timestamp : Z;
  ap_proposed_time : json;
  ap_email : json;
  ap_result : json;
  ap_item_id : json
}.

(** The record [call_data[call_uuid]]. [transcriptions] is a dict keyed by
    the utterance id, kept in insertion order; [user_details] is [JNull]
    for [None] and otherwise the dict that [get_user_details] returned. *)
Record session := {
  caller_number : string;
  called_number : string;
  timestamp : Z;
  transcriptions : list (json * transcription);
  function_calls : list function_call;
  assistant_responses : list assistant_response;
  appointments : list appointment;
  user_exists : bool;
  user_details : json;
  user_role_set : bool;
  system_message : string
}.

(** A dict with Python values as keys: lookup and assignment compare keys
    with [==]; an assignment to a present key keeps its place. *)
Fixpoint dict_get {A} (key : json) (d : list (json * A)) : option A :=
  match d with
  | [] => None
  | (k, v) :: rest => if py_eq k key then Some v else dict_get key rest
  end.

Fixpoint dict_set {A} (key : json) (v : A) (d : list (json * A)) : list (json * A) :=
  match d with
  | [] => [(key, v)]
  | (k, v0) :: rest =>
      if py_eq k key then (k, v) :: rest else (k, v0) :: dict_set key v rest
  end.

Inductive level := INFO | WARNING | ERROR.

(** A line of the log: the level, the text of the message up to the
    exception it reports, and that exception. *)
Record log_entry := {
  lvl : level;
  msg : string;
  cause : option exn
}.

(** The calls made to the collaborators, at the level of the interfaces of
    the specification. *)
Inductive call :=
| DirectoryExists (phone : string)
| DirectoryDetails (phone : string)
| DirectoryRegister (phone role : string)
| ProductSearch (query : json)
| ListSlots
| CheckSlot (proposed_time : json)
| BookSlot (proposed_time email : json)
| Summarize (transcript : string)
| RenderAndLink (content : string)
| SendLink (recipient url number : string)
| SendText (recipient body : string).

(** What [websocket.send] is given: a text, or (by mistake) a dict. *)
Inductive ws_data :=
| Text (s : string)
| Mapping (d : json).

(** The state the relay of one call works on: the process-wide
    [call_data], the two sockets of this call, the log, the calls made to
    the collaborators and the tick of the next external call. *)
Record world := {
  call_data : gmap string session;
  stream_id : option json;       (* [plivo_ws.stream_id], once set *)
  plivo_sent : list string;      (* the frames sent to the telephony socket *)
  openai_open : bool;            (* [openai_ws.open] *)
  openai_sent : list string;     (* the messages sent to the AI session *)
  log : list log_entry;
  calls : list call;
  tick : nat
}.

(** ** The monad of the relay *)

Inductive result (A : Type) :=
| Ok (a : A)
| Exn (e : exn).
Arguments Ok {A} a.
Arguments Exn {A} e.

Definition M (A : Type) : Type := world -> result A * world.

Definition ret {A} (a : A) : M A := fun w => (Ok a, w).

Definition bind {A B} (c : M A) (k : A -> M B) : M B :=
  fun w =>
    match c w with
    | (Ok a, w') => k a w'
    | (Exn e, w') => (Exn e, w')
    end.

Definition raise {A} (e : exn) : M A := fun w => (Exn e, w).

Declare Scope relay_scope.
Delimit Scope relay_scope with relay.
Notation "'let*' x := c 'in' k" := (bind c (fun x => k))
  (at level 10, x name, c at level 100, k at level 200) : relay_scope.
Notation "c ;; k" := (bind c (fun _ => k))
  (at level 100, k at level 200, right associativity) : relay_scope.
Local Open Scope relay_scope.

Definition get_world : M world := fun w => (Ok w, w).

Definition modify (f : world -> world) : M unit := fun w => (Ok tt, f w).

(** [try: c  except <clause>: h]. *)
Definition try_except {A} (c : M A) (clause : exn -> bool) (h : exn -> M A) : M A :=
  fun w =>
    match c w with
    | (Exn e, w') => if clause e then h e w' else (Exn e, w')
    | r => r
    end.

(** [try: c  except <clause 1>: h1  except <clause 2>: h2 ...]: the first
    clause that matches handles the exception; what a handler raises is
    not handled here. *)
Fixpoint handle {A} (handlers : list ((exn -> bool) * (exn -> M A))) (e : exn) : M A :=
  match handlers with
  | [] => raise e
  | (clause, h) :: rest => if clause e then h e else handle rest e
  end.

Definition try_handlers {A} (c : M A) (handlers : list ((exn -> bool) * (exn -> M A))) : M A :=
  fun w =>
    match c w with
    | (Exn e, w') => handle handlers e w'
    | r => r
    end.

(** [try: c  finally: f]. *)
Definition try_finally {A} (c : M A) (f : M unit) : M A :=
  fun w =>
    match c w with
    | (r, w') =>
        match f w' with
        | (Ok _, w'') => (r, w'')
        | (Exn e, w'') => (Exn e, w'')
        end
    end.

(** The world after running [c], and what [c] returned. *)
Definition exec {A} (c : M A) (w : world) : world := snd (c w).
Definition eval {A} (c : M A) (w : world) : result A := fst (c w).

Definition set_call_data (f : gmap string session -> gmap string session) (w : world) : world :=
  {| call_data := f (call_data w); stream_id := stream_id w;
     plivo_sent := plivo_sent w; openai_open := openai_open w;
     openai_sent := openai_sent w; log := log w; calls := calls w;
     tick := tick w |}.

Definition set_stream_id (v : json) (w : world) : world :=
  {| call_data := call_data w; stream_id := Some v;
     plivo_sent := plivo_sent w; openai_open := openai_open w;
     openai_sent := openai_sent w; log := log w; calls := calls w;
     tick := tick w |}.

Definition push_plivo (s : string) (w : world) : world :=
  {| call_data := call_data w; stream_id := stream_id w;
     plivo_sent := plivo_sent w ++ [s]; openai_open := openai_open w;
     openai_sent := openai_sent w; log := log w; calls := calls w;
     tick := tick w |}.

Definition push_openai (s : string) (w : world) : world :=
  {| call_data := call_data w; stream_id := stream_id w;
     plivo_sent := plivo_sent w; openai_open := openai_open w;
     openai_sent := openai_sent w ++ [s]; log := log w; calls := calls w;
     tick := tick w |}.

Definition set_openai_open (b : bool) (w : world) : world :=
  {| call_data := call_data w; stream_id := stream_id w;
     plivo_sent := plivo_sent w; openai_open := b;
     openai_sent := openai_sent w; log := log w; calls := calls w;
     tick := tick w |}.

Definition push_log (l : log_entry) (w : world) : world :=
  {| call_data := call_data w; stream_id := stream_id w;
     plivo_sent := plivo_sent w; openai_open := openai_open w;
     openai_sent := openai_sent w; log := log w ++ [l]; calls := calls w;
     tick := tick w |}.

Definition push_call (c : call) (w : world) : world :=
  {| call_data := call_data w; stream_id := stream_id w;
     plivo_sent := plivo_sent w; openai_open := openai_open w;
     openai_sent := openai_sent w; log := log w; calls := calls w ++ [c];
     tick := tick w |}.

Definition next_tick (w : world) : world :=
  {| call_data := call_data w; stream_id := stream_id w;
     plivo_sent := plivo_sent w; openai_open := openai_open w;
     openai_sent := openai_sent w; log := log w; calls := calls w;
     tick := S (tick w) |}.

(** [logger.info], [logger.warning], [logger.error]. *)
Definition logger (l : level) (m : string) (e : option exn) : M unit :=
  modify (push_log {| lvl := l; msg := m; cause := e |}).

(** An external call: the answer of this tick; the tick advances. *)
Definition external {A} (f : nat -> A) : M A :=
  fun w => (Ok (f (tick w)), next_tick w).

(** An external call that may raise. *)
Definition external_try {A} (f : nat -> outcome A) : M A :=
  fun w =>
    match f (tick w) with
    | Returns a => (Ok a, next_tick w)
    | Raises f => (Exn (Failure f), next_tick w)
    end.

Definition record_call (c : call) : M unit := modify (push_call c).

(** ** Python's operations on the values *)

(** [obj.get(key, default)]: only a dict has the method. *)
Definition get_method (obj : json) (key : string) (default : json) : M json :=
  match obj with
  | JDict fields =>
      ret (match assoc key fields with Some v => v | None => default end)
  | _ => raise (error AttributeError "object has no attribute 'get'")
  end.

(** [obj[key]] for a string key. *)
Definition subscript (obj : json) (key : string) : M json :=
  match obj with
  | JDict fields =>
      match assoc key fields with
      | Some v => ret v
      | None => raise (error KeyError key)
      end
  | _ => raise (error TypeError "object is not subscriptable by a string")
  end.

(** ['text' in obj]. *)
Definition contains_str (needle : string) (obj : json) : M bool :=
  match obj with
  | JDict fields => ret (match assoc needle fields with Some _ => true | None => false end)
  | JStr s => ret (is_substring needle s)
  | JList items => ret (existsb (fun x => py_eq x (JStr needle)) items)
  | _ => raise (error TypeError "argument is not iterable")
  end.

(** [a += b], that is [a + b] on the values a frame can hold. *)
Definition py_add (a b : json) : M json :=
  match a, b with
  | JStr s, JStr t => ret (JStr (s ++ t))
  | JList l, JList m => ret (JList (l ++ m))
  | _, _ =>
      match num_of a, num_of b with
      | Some x, Some y => ret (JInt (x + y))
      | _, _ => raise (error TypeError "unsupported operand type(s) for +")
      end
  end.

(** [json.loads(v)]: the argument must be a text. *)
Definition loads `{Codec} (v : json) : M json :=
  match v with
  | JStr s =>
      match json_loads s with
      | Some j => ret j
      | None => raise (error JSONDecodeError "Expecting value")
      end
  | _ => raise (error TypeError "the JSON object must be str, bytes or bytearray")
  end.

(** [base64.b64encode(base64.b64decode(v)).decode('utf-8')]. *)
Definition b64_reencode (v : json) : M string :=
  match v with
  | JStr s =>
      let chars := list_ascii_of_string s in
      if forallb Base64.is_ascii chars then
        match Base64.a2b_loop chars Base64.a2b_init with
        | Some data => ret (string_of_list_ascii (Base64.b64encode data))
        | None => raise (error BinasciiError "Incorrect padding")
        end
      else raise (error ValueError "string argument should contain only ASCII characters")
  | _ => raise (error TypeError "argument should be a bytes-like object or ASCII string")
  end.

(** ** The sockets *)

(** [websockets]' [send] on the AI-session socket: a closed connection
    raises [ConnectionClosed]; a text is sent; a dict is refused with
    [TypeError] (the library's guard against that common mistake). *)
Definition openai_ws_send (data : ws_data) : M unit :=
  let* w := get_world in
  if openai_open w then
    match data with
    | Text s => modify (push_openai s)
    | Mapping _ => raise (error TypeError "data is a dict-like object")
    end
  else raise (error ConnectionClosed "no close frame received or sent").

Definition openai_ws_close : M unit := modify (set_openai_open false).

(** [plivo_ws.send] of a text: the frame is queued for the caller. *)
Definition plivo_ws_send (s : string) : M unit := modify (push_plivo s).

(** The attribute [plivo_ws.stream_id], set by the [start] frame. *)
Definition plivo_ws_stream_id : M json :=
  let* w := get_world in
  match stream_id w with
  | Some v => ret v
  | None => raise (error AttributeError "object has no attribute 'stream_id'")
  end.

(** ** [db.py]: the user directory *)

Section Directory.
Context `{Collaborators}.

(** [does_number_exist(phone_number)] *)
Definition does_number_exist (phone_number : string) : M bool :=
  record_call (DirectoryExists phone_number) ;;
  try_except
    (let* data := external_try (fun t => supabase_select t "phone_number" phone_number) in
     ret (match data with [] => false | _ => true end))
    is_Exception
    (fun e =>
       logger ERROR "Database error while checking if number exists: " (Some e) ;;
       ret false).

(** [get_user_details(phone_number)] *)
Definition get_user_details (phone_number : string) : M json :=
  record_call (DirectoryDetails phone_number) ;;
  try_except
    (let* data := external_try (fun t => supabase_select t "*" phone_number) in
     match data with
     | [] =>
         ret (JDict [("status", JStr "not_found");
                     ("message", JStr "Number is not registered");
                     ("data", JNull)])
     | user_data :: _ =>
         let* email := get_method user_data "email" JNull in
         if negb (truthy email) ||
            match email with JStr s => String.prefix "pending_" s | _ => false end
         then
           ret (JDict [("status", JStr "incomplete");
                       ("message", JStr "Registration incomplete. Please fill up the registration form.");
                       ("data", user_data)])
         else
           ret (JDict [("status", JStr "success");
                       ("message", JStr "User found");
                       ("data", user_data)])
     end)
    is_Exception
    (fun e =>
       logger ERROR "Database error while retrieving user details: " (Some e) ;;
       ret (JDict [("status", JStr "error");
                   ("message", JStr ("Error retrieving user details: " ++ exn_text e));
                   ("data", JNull)])).

(** [add_phone_with_role(phone_number, role)] *)
Definition add_phone_with_role (phone_number role : string) : M json :=
  record_call (DirectoryRegister phone_number role) ;;
  try_except
    (let* data := external_try (fun t => supabase_select t "phone_number" phone_number) in
     match data with
     | _ :: _ =>
         logger INFO ("Phone number " ++ phone_number ++ " already exists in the database") None ;;
         ret (JDict [("status", JStr "exists");
                     ("message", JStr "Phone number already exists")])
     | [] =>
         let new_record :=
           JDict [("phone_number", JStr phone_number); ("email", JNull);
                  ("name", JNull); ("location", JNull); ("role", JStr role)] in
         external_try (fun t => supabase_insert t new_record) ;;
         ret (JDict [("status", JStr "created");
                     ("message", JStr "New phone number entry created")])
     end)
    is_Exception
    (fun e =>
       logger ERROR "Database error while adding phone with role: " (Some e) ;;
       ret (JDict [("status", JStr "error");
                   ("message", JStr ("Failed to process registration: " ++ exn_text e))])).

End Directory.

(** ** The collaborators, as [mainn.py] calls them *)

Section Wrappers.
Context `{Collaborators}.

(** [time.time()] *)
Definition time_time : M Z := external clock.

(** [realtime_tools.search_product_database(query)]: whatever happens
    inside, a text comes back. *)
Definition search_product_database (query : json) : M json :=
  record_call (ProductSearch query) ;;
  try_except
    (let* answer := external_try (fun t => rag_pipeline t query) in ret (JStr answer))
    is_Exception
    (fun e =>
       logger ERROR "Vector search error: " (Some e) ;;
       ret (JStr "Sorry, I encountered an error searching our product database.")).

(** The three functions of [google_calender]. *)
Definition get_available_slots_handler : M json :=
  record_call ListSlots ;;
  external get_available_slots_reply.

Definition is_slot_available (proposed_time : json) : M bool :=
  record_call (CheckSlot proposed_time) ;;
  external (fun t => is_slot_available_reply t proposed_time).

Definition book_slot_handler (proposed_time email : json) : M json :=
  record_call (BookSlot proposed_time email) ;;
  external (fun t => book_slot_reply t proposed_time email).

(** [tools.generate_inquiry_invoice(transcript_and_queries)] *)
Definition generate_inquiry_invoice (transcript_and_queries : string) : M string :=
  record_call (Summarize transcript_and_queries) ;;
  try_except
    (external_try (fun t => gemini_generate t transcript_and_queries))
    is_Exception
    (fun e =>
       logger ERROR "Error generating invoice: " (Some e) ;;
       ret ("Thank you for your call. (Error generating summary: " ++ exn_text e ++ ")")%string).

(** [tools_two.upload_text_to_pdf_and_get_short_url(text_content)]:
    a link, or [None]. *)
Definition upload_text_to_pdf_and_get_short_url (text_content : string) : M (option string) :=
  record_call (RenderAndLink text_content) ;;
  try_except
    (external_try (fun t => pdf_pipeline t text_content))
    is_Exception
    (fun e =>
       logger ERROR "Error creating/uploading PDF: " (Some e) ;;
       ret None).

(** [tools.send_templated_message(recipient_number, url, number)]: logs
    and raises again when the message cannot be sent. *)
Definition send_templated_message (recipient_number url number : string) : M unit :=
  record_call (SendLink recipient_number url number) ;;
  try_except
    (external_try (fun t => plivo_template t recipient_number url number))
    is_Exception
    (fun e =>
       logger ERROR "Error sending templated message: " (Some e) ;;
       raise e).

(** [tools.send_simple_whatsapp(recipient_number, message_text)] *)
Definition send_simple_whatsapp (recipient_number message_text : string) : M unit :=
  record_call (SendText recipient_number message_text) ;;
  try_except
    (external_try (fun t => plivo_text t recipient_number message_text))
    is_Exception
    (fun e =>
       logger ERROR "Error sending simple WhatsApp message: " (Some e) ;;
       raise e).

End Wrappers.

(** ** [mainn.py] *)

Definition SYSTEM_MESSAGE : string := "
You are a helpful assistant for Tec Nvirons who can handle three types of requests:
1. General chat - respond conversationally to general inquiries.
2. Product database queries - search the product database when users ask about specific products.
3. Appointment booking - help users schedule appointments using the calendar functions.
When users want to book an appointment, either directly verify if their requested time is available,
or check available slots if they haven't specified a time.
Book the appointment once a time is confirmed. Always be helpful, friendly, and conversational.
".

Definition NEW_USER_SYSTEM_MESSAGE : string := "
You are a helpful assistant for Tec Nvirons. I see you're a new caller.
Before we proceed, I need to know if you're a contractor or a customer.
Please let me know which one you are, and then I can assist you with
product information, appointment scheduling, or any other questions you have.
".

(** Updates of the fields of a session. *)
Definition with_transcriptions (v : list (json * transcription)) (s : session) : session :=
  {| caller_number := caller_number s; called_number := called_number s;
     timestamp := timestamp s; transcriptions := v;
     function_calls := function_calls s;
     assistant_responses := assistant_responses s;
     appointments := appointments s; user_exists := user_exists s;
     user_details := user_details s; user_role_set := user_role_set s;
     system_message := system_message s |}.

Definition with_function_calls (v : list function_call) (s : session) : session :=
  {| caller_number := caller_number s; called_number := called_number s;
     timestamp := timestamp s; transcriptions := transcriptions s;
     function_calls := v;
     assistant_responses := assistant_responses s;
     appointments := appointments s; user_exists := user_exists s;
     user_details := user_details s; user_role_set := user_role_set s;
     system_message := system_message s |}.

Definition with_assistant_responses (v : list assistant_response) (s : session) : session :=
  {| caller_number := caller_number s; called_number := called_number s;
     timestamp := timestamp s; transcriptions := transcriptions s;
     function_calls := function_calls s;
     assistant_responses := v;
     appointments := appointments s; user_exists := user_exists s;
     user_details := user_details s; user_role_set := user_role_set s;
     system_message := system_message s |}.

Definition with_appointments (v : list appointment) (s : session) : session :=
  {| caller_number := caller_number s; called_number := called_number s;
     timestamp := timestamp s; transcriptions := transcriptions s;
     function_calls := function_calls s;
     assistant_responses := assistant_responses s;
     appointments := v; user_exists := user_exists s;
     user_details := user_details s; user_role_set := user_role_set s;
     system_message := system_message s |}.

(** [user_role_set = True] and [system_message = m]. *)
Definition with_role_set (m : string) (s : session) : session :=
  {| caller_number := caller_number s; called_number := called_number s;
     timestamp := timestamp s; transcriptions := transcriptions s;
     function_calls := function_calls s;
     assistant_responses := assistant_responses s;
     appointments := appointments s; user_exists := user_exists s;
     user_details := user_details s; user_role_set := true;
     system_message := m |}.

(** [call_data[call_uuid] = s] and [del call_data[call_uuid]]. *)
Definition store_session (call_uuid : string) (s : session) : M unit :=
  modify (set_call_data (fun m => <[call_uuid := s]> m)).

Definition del_session (call_uuid : string) : M unit :=
  let* w := get_world in
  match call_data w !! call_uuid with
  | Some _ => modify (set_call_data (fun m => delete call_uuid m))
  | None => raise (error KeyError call_uuid)
  end.

(** [function_call_output(result, item_id, call_id)] *)
Definition function_call_output `{Codec} (result item_id call_id : json) : json :=
  JDict [("type", JStr "conversation.item.create");
         ("item", JDict [("id", item_id);
                         ("type", JStr "function_call_output");
                         ("call_id", call_id);
                         ("output", JStr (json_dumps (JDict [("result", result)])))])].

(** The [response.create] message that makes the assistant speak. *)
Definition response_create (instructions : string) : json :=
  JDict [("type", JStr "response.create");
         ("response", JDict [("modalities", JList [JStr "text"; JStr "audio"]);
                             ("temperature", JFloat "0.8");
                             ("instructions", JStr instructions)])].

Section Relay.
Context `{Codec} `{Collaborators}.

(** The stored email of the caller, where the booking branches of
    [receive_from_openai] look it up (the same lines in both):
    [if call_uuid in call_data and call_data[call_uuid]['user_exists']
        and call_data[call_uuid]['user_details']:
       if ...['status'] == 'success' and ...['data'].get('email'):
         email = ...['data']['email']]. *)
Definition profile_email (call_uuid : string) (email : json) : M json :=
  let* w := get_world in
  match call_data w !! call_uuid with
  | Some s =>
      if user_exists s && truthy (user_details s) then
        let* status := subscript (user_details s) "status" in
        if is_str status "success" then
          let* data := subscript (user_details s) "data" in
          let* stored := get_method data "email" JNull in
          if truthy stored then subscript data "email" else ret email
        else ret email
      else ret email
  | None => ret email
  end.

(** [call_data[call_uuid]['appointments'].append({...})], guarded by
    [if call_uuid in call_data]. *)
Definition record_appointment (call_uuid : string)
    (proposed_time email booking item_id : json) : M unit :=
  let* w := get_world in
  match call_data w !! call_uuid with
  | Some s =>
      let* now := time_time in
      store_session call_uuid
        (with_appointments
           (appointments s ++
            [{| ap_timestamp := now; ap_proposed_time := proposed_time;
                ap_email := email; ap_result := booking;
                ap_item_id := item_id |}]) s)
  | None => ret tt
  end.

(** The branch [check_slot_availability] of the dispatcher: the check is
    logged, and an available slot is booked at once. *)
Definition check_slot_availability (call_uuid : string) (args item_id : json)
    : M (json * string) :=
  let* proposed_time := subscript args "proposed_time" in
  let* availability := is_slot_available proposed_time in
  (let* w := get_world in
   match call_data w !! call_uuid with
   | Some s =>
       let* now := time_time in
       store_session call_uuid
         (with_function_calls
            (function_calls s ++
             [{| fc_type := "check_availability"; fc_timestamp := now;
                 fc_args := args;
                 fc_result := JDict [("is_available", JBool availability);
                                     ("proposed_time", proposed_time)];
                 fc_item_id := item_id |}]) s)
   | None => ret tt
   end) ;;
  if availability then
    let* email := profile_email call_uuid (JStr "customer@example.com") in
    let* booking_result := book_slot_handler proposed_time email in
    record_appointment call_uuid proposed_time email booking_result item_id ;;
    let result := JDict [("is_available", JBool true);
                         ("proposed_time", proposed_time);
                         ("booking_result", booking_result)] in
    let* failed := contains_str "error" booking_result in
    if failed then
      let* reason := get_method booking_result "error" JNull in
      ret (result,
           "Tell the user that the time (" ++ py_str proposed_time
           ++ ") is available, but there was an error booking: " ++ py_str reason
           ++ ". Suggest trying again or choosing another time.")%string
    else
      ret (result,
           "Tell the user that the time (" ++ py_str proposed_time
           ++ ") was available and has been successfully booked. Confirm the appointment details.")%string
  else
    ret (JDict [("is_available", JBool false); ("proposed_time", proposed_time)],
         "Inform the user that the requested time (" ++ py_str proposed_time
         ++ ") is not available. Suggest they ask for another time.")%string.

(** The branch [book_appointment] of the dispatcher. *)
Definition book_appointment (call_uuid : string) (args item_id : json)
    : M (json * string) :=
  let* proposed_time := subscript args "proposed_time" in
  let* given := get_method args "email" (JStr "customer@example.com") in
  let* email := profile_email call_uuid given in
  let* result := book_slot_handler proposed_time email in
  let instructions :=
    ("Inform the user about the appointment booking result for "
     ++ py_str proposed_time ++ ".")%string in
  let* failed := contains_str "error" result in
  let instructions :=
    (if failed then instructions ++ " Apologize and suggest trying another time slot."
     else instructions ++ " Confirm the appointment was successfully booked.")%string in
  record_appointment call_uuid proposed_time email result item_id ;;
  ret (result, instructions).

(** The dispatcher: the chain [if function_name == ... elif ...], which
    assigns [result] and [instructions]; they start as [None] and ['']. *)
Definition dispatch (call_uuid : string) (function_name args item_id : json)
    : M (json * string) :=
  if is_str function_name "search_product_database" then
    let* query := subscript args "query" in
    let* result := search_product_database query in
    ret (result,
         "Share the product information from the database search with the user in a helpful way.")
  else if is_str function_name "get_available_slots" then
    let* result := get_available_slots_handler in
    ret (result,
         "Share the available appointment slots with the user. Format the times in a clear, easy-to-understand way.")
  else if is_str function_name "check_slot_availability" then
    check_slot_availability call_uuid args item_id
  else if is_str function_name "book_appointment" then
    book_appointment call_uuid args item_id
  else ret (JNull, "").

(** The event [response.function_call_arguments.done]. *)
Definition on_function_call (call_uuid : string) (response : json) : M unit :=
  let* function_name := get_method response "name" (JStr "") in
  let* arguments := subscript response "arguments" in
  let* args := loads arguments in
  let* item_id := get_method response "item_id" (JStr "") in
  let* call_id := get_method response "call_id" (JStr "") in
  logger INFO ("Function call: " ++ py_str function_name ++ " for call " ++ call_uuid) None ;;
  let* dispatched := dispatch call_uuid function_name args item_id in
  let (result, instructions) := dispatched : json * string in
  if truthy result then
    openai_ws_send (Text (json_dumps (function_call_output result item_id call_id))) ;;
    openai_ws_send (Text (json_dumps (response_create instructions)))
  else ret tt.

(** [r['text'] += text_delta] on the first entry with this [item_id]. *)
Fixpoint append_text (item_id text_delta : json) (rs : list assistant_response)
    : M (list assistant_response) :=
  match rs with
  | [] => ret []
  | r :: rest =>
      if py_eq (ar_item_id r) item_id then
        let* t := py_add (ar_text r) text_delta in
        ret ({| ar_item_id := ar_item_id r; ar_text := t;
                ar_timestamp := ar_timestamp r |} :: rest)
      else
        let* rest' := append_text item_id text_delta rest in
        ret (r :: rest')
  end.

(** The event [response.text.delta]. *)
Definition on_text_delta (call_uuid : string) (response : json) : M unit :=
  let* w := get_world in
  match call_data w !! call_uuid with
  | Some s =>
      let* text_delta := get_method response "delta" (JStr "") in
      let* item_id := get_method response "item_id" (JStr "unknown") in
      if negb (existsb (fun r => py_eq (ar_item_id r) item_id) (assistant_responses s)) then
        let* now := time_time in
        store_session call_uuid
          (with_assistant_responses
             (assistant_responses s ++
              [{| ar_item_id := item_id; ar_text := text_delta;
                  ar_timestamp := now |}]) s)
      else
        let* rs := append_text item_id text_delta (assistant_responses s) in
        store_session call_uuid (with_assistant_responses rs s)
  | None => ret tt
  end.

(** The event [response.audio.delta]. *)
Definition on_audio_delta (response : json) : M unit :=
  let* delta := subscript response "delta" in
  let* payload := b64_reencode delta in
  plivo_ws_send
    (json_dumps
       (JDict [("event", JStr "playAudio");
               ("media", JDict [("contentType", JStr "audio/x-mulaw");
                                ("sampleRate", JInt 8000);
                                ("payload", JStr payload)])])).

(** A key of a dict must be hashable. *)
Definition hash_key (key : json) : M unit :=
  if hashable key then ret tt else raise (error TypeError "unhashable type").

(** The event [conversation.item.input_audio_transcription.delta]. *)
Definition on_transcription_delta (call_uuid : string) (response : json) : M unit :=
  let* item_id := get_method response "item_id" JNull in
  let* delta := get_method response "delta" (JStr "") in
  let* w := get_world in
  match call_data w !! call_uuid with
  | Some s =>
      hash_key item_id ;;
      match dict_get item_id (transcriptions s) with
      | None =>
          store_session call_uuid
            (with_transcriptions
               (dict_set item_id {| t_text := delta; t_complete := false |}
                  (transcriptions s)) s)
      | Some t =>
          let* joined := py_add (t_text t) delta in
          store_session call_uuid
            (with_transcriptions
               (dict_set item_id {| t_text := joined; t_complete := t_complete t |}
                  (transcriptions s)) s)
      end
  | None => ret tt
  end.

(** [full_transcript.lower()]: a method of [str]. *)
Definition lower_method (v : json) : M string :=
  match v with
  | JStr s => ret (lower s)
  | _ => raise (error AttributeError "object has no attribute 'lower'")
  end.

(** The event [conversation.item.input_audio_transcription.completed],
    with the capture of the role of a first-time caller. *)
Definition on_transcription_completed (call_uuid : string) (response : json) : M unit :=
  let* item_id := get_method response "item_id" JNull in
  let* full_transcript := get_method response "transcript" (JStr "") in
  let* w := get_world in
  match call_data w !! call_uuid with
  | Some s =>
      hash_key item_id ;;
      let s1 :=
        with_transcriptions
          (dict_set item_id {| t_text := full_transcript; t_complete := true |}
             (transcriptions s)) s in
      store_session call_uuid s1 ;;
      if negb (user_exists s1) && negb (user_role_set s1) then
        let* lower_transcript := lower_method full_transcript in
        if is_substring "contractor" lower_transcript
           || is_substring "customer" lower_transcript then
          let role :=
            if is_substring "contractor" lower_transcript
            then "contractor" else "customer" in
          let caller := caller_number s1 in
          let* result := add_phone_with_role caller role in
          let* status := subscript result "status" in
          if is_str status "created" || is_str status "exists" then
            store_session call_uuid (with_role_set SYSTEM_MESSAGE s1) ;;
            openai_ws_send
              (Text (json_dumps
                       (JDict [("type", JStr "session.update");
                               ("session", JDict [("instructions", JStr SYSTEM_MESSAGE)])]))) ;;
            logger INFO ("Added new user with role: " ++ role ++ ", phone: " ++ caller) None ;;
            openai_ws_send
              (Mapping
                 (response_create
                    ("Thank the user for specifying they are a " ++ role
                     ++ ". Now continue with normal conversation, offering to help with product information or appointment scheduling.")))
          else ret tt
        else ret tt
      else ret tt
  | None => ret tt
  end.

(** The event [input_audio_buffer.speech_started]. *)
Definition on_speech_started : M unit :=
  let* sid := plivo_ws_stream_id in
  plivo_ws_send (json_dumps (JDict [("event", JStr "clearAudio"); ("stream_id", sid)])) ;;
  openai_ws_send (Mapping (JDict [("type", JStr "response.cancel")])).

(** The body of the [try] of [receive_from_openai]. *)
Definition openai_event (message call_uuid : string) : M unit :=
  let* response := loads (JStr message) in
  let* response_type := get_method response "type" (JStr "unknown") in
  if is_str response_type "session.updated" then
    logger INFO ("Session updated successfully for call " ++ call_uuid) None
  else if is_str response_type "error" then
    logger ERROR ("Error from OpenAI for call " ++ call_uuid ++ ": " ++ py_str response) None
  else if is_str response_type "response.text.delta" then
    on_text_delta call_uuid response
  else if is_str response_type "response.audio.delta" then
    on_audio_delta response
  else if is_str response_type "response.function_call_arguments.done" then
    on_function_call call_uuid response
  else if is_str response_type "conversation.item.input_audio_transcription.delta" then
    on_transcription_delta call_uuid response
  else if is_str response_type "conversation.item.input_audio_transcription.completed" then
    on_transcription_completed call_uuid response
  else if is_str response_type "input_audio_buffer.speech_started" then
    on_speech_started
  else ret tt.

(** [receive_from_openai(message, plivo_ws, openai_ws, call_uuid)] *)
Definition receive_from_openai (message call_uuid : string) : M unit :=
  try_except (openai_event message call_uuid) is_Exception
    (fun e =>
       logger ERROR ("Error processing OpenAI message for call " ++ call_uuid ++ ": ") (Some e)).

End Relay.

(** *** The post-call summarizer *)

Definition NL : string := String (ascii_of_nat 10) EmptyString.

(** An element of [conversation_events]. *)
Inductive conversation_event :=
| user_message (ts : Z) (item_id text : json)
| assistant_message (ts : Z) (item_id text : json)
| function_call_event (ts : Z) (item_id : json) (call_type : string) (data : function_call)
| appointment_event (ts : Z) (item_id proposed_time result : json).

Definition event_timestamp (e : conversation_event) : Z :=
  match e with
  | user_message ts _ _ => ts
  | assistant_message ts _ _ => ts
  | function_call_event ts _ _ _ => ts
  | appointment_event ts _ _ _ => ts
  end.

(** [conversation_events.sort(key=lambda x: x['timestamp'])]: a stable
    sort. *)
Fixpoint insert_event (e : conversation_event) (sorted : list conversation_event)
    : list conversation_event :=
  match sorted with
  | [] => [e]
  | x :: rest =>
      if (event_timestamp e <? event_timestamp x)%Z then e :: x :: rest
      else x :: insert_event e rest
  end.

Definition sort_events (events : list conversation_event) : list conversation_event :=
  fold_left (fun sorted e => insert_event e sorted) events [].

Section Summarizer.
Context `{Codec} `{Collaborators}.

(** The four loops that fill [conversation_events]; each evaluates
    [time.time()] once per element. *)
Fixpoint user_events (ts : list (json * transcription)) : M (list conversation_event) :=
  match ts with
  | [] => ret []
  | (item_id, data) :: rest =>
      let* now := time_time in
      let* more := user_events rest in
      ret (user_message now item_id (t_text data) :: more)
  end.

Fixpoint assistant_events (rs : list assistant_response) : M (list conversation_event) :=
  match rs with
  | [] => ret []
  | r :: rest =>
      time_time ;;
      let* more := assistant_events rest in
      ret (assistant_message (ar_timestamp r) (ar_item_id r) (ar_text r) :: more)
  end.

Fixpoint function_call_events (cs : list function_call) : M (list conversation_event) :=
  match cs with
  | [] => ret []
  | c :: rest =>
      time_time ;;
      let* more := function_call_events rest in
      ret (function_call_event (fc_timestamp c) (fc_item_id c) (fc_type c) c :: more)
  end.

Fixpoint appointment_events (aps : list appointment) : M (list conversation_event) :=
  match aps with
  | [] => ret []
  | a :: rest =>
      time_time ;;
      let* more := appointment_events rest in
      ret (appointment_event (ap_timestamp a) (ap_item_id a) (ap_proposed_time a)
             (ap_result a) :: more)
  end.

(** The text one event adds to the transcript, and the booking it adds
    to [booked_appointments] (time and link). *)
Definition render_event (e : conversation_event) : M (string * list (json * json)) :=
  match e with
  | user_message _ _ t => ret ("User: " ++ py_str t ++ NL ++ NL, [])%string
  | assistant_message _ _ t => ret ("Assistant: " ++ py_str t ++ NL ++ NL, [])%string
  | function_call_event _ _ call_type data =>
      if String.eqb call_type "search_product_database" then
        let* query := get_method (fc_args data) "query" (JStr "") in
        ret (NL ++ "DATABASE QUERY: " ++ py_str query ++ NL
             ++ "RESULT: " ++ py_str (fc_result data) ++ NL ++ NL, [])%string
      else if String.eqb call_type "get_available_slots"
              || String.eqb call_type "check_slot_availability" then
        let head := (NL ++ "CALENDAR QUERY: " ++ call_type ++ NL)%string in
        if String.eqb call_type "check_slot_availability" then
          let* proposed := get_method (fc_args data) "proposed_time" (JStr "") in
          let* available := get_method (fc_result data) "is_available" (JBool false) in
          ret (head ++ "PROPOSED TIME: " ++ py_str proposed ++ NL
               ++ "AVAILABLE: " ++ py_str available ++ NL ++ NL, [])%string
        else ret (head, [])
      else ret (""%string, [])
  | appointment_event _ _ proposed_time result =>
      let head :=
        (NL ++ "===== APPOINTMENT BOOKING =====" ++ NL
         ++ "Time: " ++ py_str proposed_time ++ NL)%string in
      let failed :=
        match result with
        | JDict fields => match assoc "error" fields with Some _ => true | None => false end
        | _ => false
        end in
      if failed then
        let* reason := get_method result "error" (JStr "") in
        ret (head ++ "Status: Failed - " ++ py_str reason ++ NL ++ NL, [])%string
      else
        let* link := get_method result "htmlLink" (JStr "") in
        ret (head ++ "Status: Successfully booked" ++ NL
             ++ "Calendar Link: " ++ py_str link ++ NL ++ NL,
             [(proposed_time, link)])%string
  end.

Fixpoint render_events (events : list conversation_event)
    : M (string * list (json * json)) :=
  match events with
  | [] => ret (""%string, [])
  | e :: rest =>
      let* one := render_event e in
      let* more := render_events rest in
      ret ((fst one ++ fst more)%string, snd one ++ snd more)
  end.

(** The lines of the appointment summary, numbered from [idx]. *)
Fixpoint summary_lines (idx : Z) (booked : list (json * json)) : string :=
  match booked with
  | [] => ""
  | (time, link) :: rest =>
      "Appointment #" ++ py_str (JInt idx) ++ ": " ++ py_str time ++ NL
      ++ "Link: " ++ py_str link ++ NL ++ summary_lines (idx + 1) rest
  end.

Definition appointment_summary (booked : list (json * json)) : string :=
  match booked with
  | [] => ""
  | _ =>
      NL ++ "===== APPOINTMENT SUMMARY =====" ++ NL ++ summary_lines 1 booked
      ++ "==============================" ++ NL ++ NL
  end.

(** The delivery of the summary to the caller. *)
Definition deliver (call_uuid caller invoice : string) : M unit :=
  if negb (String.eqb caller "") && negb (String.eqb caller "unknown") then
    try_except
      (let* short_url := upload_text_to_pdf_and_get_short_url invoice in
       match short_url with
       | Some url =>
           if negb (String.eqb url "") then
             send_templated_message caller url caller ;;
             logger INFO ("WhatsApp Template invoice sent successfully to " ++ caller
                          ++ " for call " ++ call_uuid) None
           else
             send_simple_whatsapp caller invoice ;;
             logger WARNING ("Sent plain text invoice to " ++ caller
                             ++ " (PDF creation failed)") None
       | None =>
           send_simple_whatsapp caller invoice ;;
           logger WARNING ("Sent plain text invoice to " ++ caller
                           ++ " (PDF creation failed)") None
       end)
      is_Exception
      (fun e =>
         logger ERROR ("Failed to send WhatsApp message for call " ++ call_uuid ++ ": ") (Some e))
  else
    logger WARNING ("No valid caller number to send WhatsApp message for call " ++ call_uuid) None.

(** The body of the [try] of [after_call_hangup]. *)
Definition post_call (call_uuid : string) (call_info : session) : M unit :=
  match transcriptions call_info, function_calls call_info,
        assistant_responses call_info with
  | [], [], [] =>
      logger WARNING ("No conversation data recorded for call " ++ call_uuid) None ;;
      let* w := get_world in
      match call_data w !! call_uuid with
      | Some _ => del_session call_uuid
      | None => ret tt
      end
  | _, _, _ =>
      let* users := user_events (transcriptions call_info) in
      let* assistants := assistant_events (assistant_responses call_info) in
      let* tools := function_call_events (function_calls call_info) in
      let* booked := appointment_events (appointments call_info) in
      let conversation_events := sort_events (users ++ assistants ++ tools ++ booked) in
      let* rendered := render_events conversation_events in
      let transcript_text :=
        ("CALL TRANSCRIPT & CONVERSATION" ++ NL
         ++ "============================" ++ NL ++ NL
         ++ fst rendered ++ appointment_summary (snd rendered))%string in
      let caller := caller_number call_info in
      logger INFO ("Sending summary to caller number: " ++ caller) None ;;
      let* invoice := generate_inquiry_invoice transcript_text in
      deliver call_uuid caller invoice
  end.

(** [after_call_hangup(call_uuid)]. The body holds no [await]: once
    entered, it runs to its end before any other task of the process. *)
Definition after_call_hangup (call_uuid : string) : M unit :=
  let* w := get_world in
  match call_data w !! call_uuid with
  | None => logger WARNING ("No call data found for UUID " ++ call_uuid) None
  | Some call_info =>
      logger INFO ("Processing after-call actions for " ++ call_uuid) None ;;
      try_finally
        (try_except (post_call call_uuid call_info) is_Exception
           (fun e =>
              logger ERROR ("Error in after-call processing for call " ++ call_uuid ++ ": ")
                (Some e)))
        (let* w := get_world in
         match call_data w !! call_uuid with
         | Some _ =>
             logger INFO ("Cleaning up data for call " ++ call_uuid) None ;;
             del_session call_uuid
         | None => ret tt
         end)
  end.

End Summarizer.

(** *** The two pumps *)

(** What [await ws.receive()] or the next turn of [async for] gives: a
    message, or an exception. While the list of what arrives is not yet
    exhausted the pump takes its elements in order; at its end the pump
    waits. *)
Definition receive (a : arrival) : M string :=
  match a with
  | Arrives message => ret message
  | Breaks e => raise e
  end.

Inductive pump_status := Waiting | Finished.

Section Pumps.
Context `{Codec} `{Collaborators}.

(** One turn of the [while True] of [receive_from_plivo], after the
    message arrived; [true] is the [break]. *)
Definition plivo_frame (message call_uuid : string) : M bool :=
  let* data := loads (JStr message) in
  let* event := subscript data "event" in
  let* w := get_world in
  if is_str event "media" && openai_open w then
    let* media := subscript data "media" in
    let* payload := subscript media "payload" in
    openai_ws_send
      (Text (json_dumps (JDict [("type", JStr "input_audio_buffer.append");
                                ("audio", payload)]))) ;;
    ret false
  else if is_str event "start" then
    logger INFO ("Plivo Audio stream has started for call " ++ call_uuid) None ;;
    let* start := subscript data "start" in
    let* sid := subscript start "streamId" in
    modify (set_stream_id sid) ;;
    ret false
  else if is_str event "hangup" then
    logger INFO ("Call has ended for call " ++ call_uuid) None ;;
    after_call_hangup call_uuid ;;
    let* w := get_world in
    (if openai_open w then openai_ws_close else ret tt) ;;
    ret true
  else ret false.

Fixpoint plivo_loop (arrivals : list arrival) (call_uuid : string)
    : M pump_status :=
  match arrivals with
  | [] => ret Waiting
  | a :: rest =>
      let* message := receive a in
      let* stop := plivo_frame message call_uuid in
      if stop then ret Finished else plivo_loop rest call_uuid
  end.

(** [receive_from_plivo(plivo_ws, openai_ws, call_uuid)]: the [try] is
    around the loop. *)
Definition receive_from_plivo (arrivals : list arrival) (call_uuid : string)
    : M pump_status :=
  try_handlers (plivo_loop arrivals call_uuid)
    [(is_ConnectionClosed,
      fun _ =>
        logger INFO ("Connection closed for the plivo audio streaming servers for call "
                     ++ call_uuid) None ;;
        after_call_hangup call_uuid ;;
        let* w := get_world in
        (if openai_open w then openai_ws_close else ret tt) ;;
        ret Finished);
     (is_Exception,
      fun e =>
        logger ERROR ("Error during Plivo's websocket communication for call "
                      ++ call_uuid ++ ": ") (Some e) ;;
        after_call_hangup call_uuid ;;
        ret Finished)].

(** The [async for message in openai_ws] of [handle_message]. *)
Fixpoint openai_loop (arrivals : list arrival) (call_uuid : string)
    : M pump_status :=
  match arrivals with
  | [] => ret Waiting
  | a :: rest =>
      let* message := receive a in
      receive_from_openai message call_uuid ;;
      openai_loop rest call_uuid
  end.

(** [handle_message(call_uuid)], from the loop on: the three [except]
    clauses each run the post-call processing. *)
Definition handle_message (arrivals : list arrival) (call_uuid : string)
    : M pump_status :=
  try_handlers (openai_loop arrivals call_uuid)
    [(is_CancelledError,
      fun _ =>
        logger INFO ("Client disconnected for call " ++ call_uuid) None ;;
        after_call_hangup call_uuid ;;
        ret Finished);
     (is_ConnectionClosed,
      fun _ =>
        logger INFO ("Connection closed by OpenAI server for call " ++ call_uuid) None ;;
        after_call_hangup call_uuid ;;
        ret Finished);
     (is_Exception,
      fun e =>
        logger ERROR ("Error during OpenAI's websocket communication for call "
                      ++ call_uuid ++ ": ") (Some e) ;;
        after_call_hangup call_uuid ;;
        ret Finished)].

(** The session that [handle_message] makes up when the call has none. *)
Definition anonymous_session (now : Z) : session :=
  {| caller_number := "unknown"; called_number := "unknown"; timestamp := now;
     transcriptions := []; function_calls := []; assistant_responses := [];
     appointments := []; user_exists := false; user_details := JNull;
     user_role_set := false; system_message := NEW_USER_SYSTEM_MESSAGE |}.

(** The start of [handle_message]: [if call_uuid not in call_data: ...]. *)
Definition ensure_call_data (call_uuid : string) : M unit :=
  logger INFO ("Client connected for call UUID: " ++ call_uuid) None ;;
  let* w := get_world in
  match call_data w !! call_uuid with
  | Some _ => ret tt
  | None =>
      logger WARNING ("Warning: No call data found for UUID " ++ call_uuid
                      ++ ", creating empty data") None ;;
      let* now := time_time in
      store_session call_uuid (anonymous_session now)
  end.

(** *** The webhook *)

Inductive webhook_reply :=
| Stream (greeting_message : string)
| TechnicalIssue.

Definition value_of (key default : string) (values : list (string * string)) : string :=
  match assoc key values with Some v => v | None => default end.

(** [home()]: the directory is asked about the caller and the session of
    the call is created. *)
Definition home (values : list (string * string)) : M webhook_reply :=
  try_except
    (let caller := value_of "From" "unknown" values in
     let called := value_of "To" "unknown" values in
     let call_uuid := value_of "CallUUID" "unknown" values in
     logger INFO ("Incoming call from " ++ caller ++ " to " ++ called
                  ++ " (UUID: " ++ call_uuid ++ ")") None ;;
     let* exists_ := does_number_exist caller in
     let* greeted :=
       (if exists_ then
          let* details := get_user_details caller in
          let* status := subscript details "status" in
          if is_str status "success" then
            let* data := subscript details "data" in
            let* user_name := subscript data "name" in
            let* email := get_method data "email" JNull in
            logger INFO ("Existing user: " ++ py_str user_name ++ " with email: "
                         ++ py_str email) None ;;
            ret (details,
                 "Hey " ++ py_str user_name
                 ++ "! Welcome back to Technvi AI. How can I help you today?",
                 SYSTEM_MESSAGE)%string
          else
            ret (details, "Welcome to Technvi AI! How can I help you today?"%string,
                 SYSTEM_MESSAGE)
        else
          logger INFO ("New user calling from: " ++ caller) None ;;
          ret (JNull,
               "Welcome to Technvi AI! I see you're a new caller. Are you a contractor or a customer?"%string,
               NEW_USER_SYSTEM_MESSAGE)) in
     let '(details, greeting_message, system_message_to_use) :=
       (greeted : json * string * string) in
     let* now := time_time in
     store_session call_uuid
       {| caller_number := caller; called_number := called; timestamp := now;
          transcriptions := []; function_calls := []; assistant_responses := [];
          appointments := []; user_exists := exists_; user_details := details;
          user_role_set := false; system_message := system_message_to_use |} ;;
     ret (Stream greeting_message))
    is_Exception
    (fun e =>
       logger ERROR "Error in webhook handler: " (Some e) ;;
       ret TechnicalIssue).

End Pumps.

(** *** The life of one call

    The two pumps of a call are tasks of one cooperative scheduler. The
    session store is only touched in stretches of code without [await]:
    [receive_from_openai] reads and writes it before its first [send], and
    [after_call_hangup] holds no [await] at all. For the store, a schedule
    of the two tasks is therefore a sequence of whole steps, each the
    arrival of one message (or exception) at one of the two pumps. *)

Inductive arrival_at :=
| AtOpenAI (a : arrival)     (* one turn of the loop of [handle_message] *)
| AtPlivo (a : arrival).     (* one turn of the loop of [receive_from_plivo] *)

Section Life.
Context `{Codec} `{Collaborators}.

Definition step (call_uuid : string) (a : arrival_at) : M pump_status :=
  match a with
  | AtOpenAI r => handle_message [r] call_uuid
  | AtPlivo r => receive_from_plivo [r] call_uuid
  end.

(** The worlds a schedule goes through, after each of its steps. *)
Fixpoint run (call_uuid : string) (schedule : list arrival_at) (w : world) : list world :=
  match schedule with
  | [] => []
  | a :: rest =>
      let w' := exec (step call_uuid a) w in
      w' :: run call_uuid rest w'
  end.

(** The three triggers of the post-call processing: the [hangup] frame,
    the loss of a socket, and an exception that leaves a pump. *)
Definition is_hangup_frame (message : string) : bool :=
  match json_loads message with
  | Some (JDict fields) =>
      match assoc "event" fields with
      | Some v => is_str v "hangup"
      | None => false
      end
  | _ => false
  end.

Definition fires (a : arrival_at) : bool :=
  match a with
  | AtOpenAI (Breaks _) => true
  | AtOpenAI (Arrives _) => false
  | AtPlivo (Breaks e) => is_Exception e
  | AtPlivo (Arrives message) => is_hangup_frame message
  end.

End Life.

(** The calls to the summarizing and to the delivering collaborator. *)
Definition is_summarize (c : call) : bool :=
  match c with Summarize _ => true | _ => false end.

Definition is_delivery (c : call) : bool :=
  match c with SendLink _ _ _ | SendText _ _ => true | _ => false end.

Definition is_register (c : call) : bool :=
  match c with DirectoryRegister _ _ => true | _ => false end.

Definition summaries (w : world) : nat := length (List.filter is_summarize (calls w)).
Definition deliveries (w : world) : nat := length (List.filter is_delivery (calls w)).
Definition registrations (w : world) : list call := List.filter is_register (calls w).

Definition has_session (call_uuid : string) (w : world) : bool :=
  match call_data w !! call_uuid with Some _ => true | None => false end.

(** How often the session of the call goes from present to absent along
    the worlds [ws] that follow [w]. *)
Fixpoint deletions (call_uuid : string) (w : world) (ws : list world) : nat :=
  match ws with
  | [] => 0
  | w' :: rest =>
      (if has_session call_uuid w && negb (has_session call_uuid w') then 1 else 0)
      + deletions call_uuid w' rest
  end.

(** ** Vocabulary of the statements *)

(** The two messages of a barge-in: the frame for the telephony socket
    and the cancellation for the AI session. *)
Definition clear_audio (sid : json) : json :=
  JDict [("event", JStr "clearAudio"); ("stream_id", sid)].

Definition response_cancel : json := JDict [("type", JStr "response.cancel")].

(** The frame [message] decodes to an object whose [type] is [type]. *)
Definition decodes `{Codec} (message type : string) (ev : list (string * json)) : Prop :=
  json_loads message = Some (JDict ev) /\ assoc "type" ev = Some (JStr type).

(** [ev.get(key, default)] on the fields of a decoded object. *)
Definition field (ev : list (string * json)) (key : string) (default : json) : json :=
  match assoc key ev with Some v => v | None => default end.

(** The [user_details] of a session are [None] or a dict with a [status]
    which, when it is ['success'], comes with the row of the caller as
    [data]: what [home] and [handle_message] store. *)
Definition details_ok (s : session) : Prop :=
  user_details s = JNull \/
  exists fields status,
    user_details s = JDict fields /\
    assoc "status" fields = Some status /\
    (is_str status "success" = true ->
     exists row, assoc "data" fields = Some (JDict row)).

(** The email a booking of this session is made with, [email] being the
    one to use when the profile gives none. *)
Definition best_email (s : session) (email : json) : json :=
  if user_exists s && truthy (user_details s) then
    match user_details s with
    | JDict fields =>
        match assoc "status" fields, assoc "data" fields with
        | Some status, Some (JDict row) =>
            if is_str status "success" && truthy (field row "email" JNull)
            then field row "email" JNull else email
        | _, _ => email
        end
    | _ => email
    end
  else email.

Definition placeholder : json := JStr "customer@example.com".



(** The text accumulated for an utterance of the user, and for one of
    the assistant; the empty text when there is no fragment yet. *)
Definition fragment_text (id : json) (s : session) : json :=
  match dict_get id (transcriptions s) with
  | Some t => t_text t
  | None => JStr ""
  end.

Definition response_text (id : json) (s : session) : json :=
  match find (fun r => py_eq (ar_item_id r) id) (assistant_responses s) with
  | Some r => ar_text r
  | None => JStr ""
  end.

(** The session of the call is there, with these transcription
    fragments. *)
Definition holds_fragments (u : string) (tr : list (json * transcription))
    (w : world) : Prop :=
  exists s, call_data w !! u = Some s /\ transcriptions s = tr.

(** The status that [add_phone_with_role] returns when it is called at
    tick [t]. *)
Definition registration_status `{Collaborators} (t : nat) (phone role : string) : string :=
  match supabase_select t "phone_number" phone with
  | Returns (_ :: _) => "exists"
  | Returns [] =>
      match supabase_insert (S t)
              (JDict [("phone_number", JStr phone); ("email", JNull);
                      ("name", JNull); ("location", JNull); ("role", JStr role)]) with
      | Returns _ => "created"
      | Raises _ => "error"
      end
  | Raises _ => "error"
  end.

(** The role a transcript declares: [contractor] is looked for first. *)
Definition declared_role (transcript : string) : option string :=
  if is_substring "contractor" (lower transcript) then Some "contractor"
  else if is_substring "customer" (lower transcript) then Some "customer"
  else None.

(** The caller of the call has declared a role, and the registrations
    made so far are [regs]. *)
Definition role_declared (u : string) (regs : list call) (w : world) : Prop :=
  (exists s, call_data w !! u = Some s /\ user_role_set s = true) /\
  registrations w = regs.

(** The message that switches the instructions of the AI session. *)
Definition session_update (instructions : string) : json :=
  JDict [("type", JStr "session.update");
         ("session", JDict [("instructions", JStr instructions)])].

(** The [finally] of [after_call_hangup]. *)
Definition cleanup (u : string) : M unit :=
  let* w := get_world in
  match call_data w !! u with
  | Some _ => logger INFO ("Cleaning up data for call " ++ u) None ;; del_session u
  | None => ret tt
  end.

(** A computation that leaves the world as it is. *)
Definition pure {A} (c : M A) : Prop := forall w, exec c w = w.

(** A property of the world that every run of [c] preserves, whether [c]
    returns or raises. *)
Definition inv {A} (I : world -> Prop) (c : M A) : Prop :=
  forall w, I w -> I (exec c w).

(** From [P] before to [Q] after, whether [c] returns or raises. *)
Definition hoare {A} (P : world -> Prop) (c : M A) (Q : world -> Prop) : Prop :=
  forall w, P w -> Q (exec c w).

(** What [c] raises, if anything, is an [Exception] (and so not a
    cancellation). *)
Definition safe {A} (c : M A) : Prop :=
  forall w e, eval c w = Exn e -> is_Exception e = true.

(** [c] never raises. *)
Definition returns {A} (c : M A) : Prop :=
  forall w, exists a, eval c w = Ok a.

(** A property that only looks at the session store and at the calls
    made to the collaborators. *)
Class ViewOnly (I : world -> Prop) : Prop :=
  view_only : forall w w',
    call_data w' = call_data w -> calls w' = calls w -> I w -> I w'.

(** The session of the call is absent, with [n] summaries and [m]
    deliveries made so far; and the same with the session present. *)
Definition Gone (u : string) (n m : nat) (w : world) : Prop :=
  call_data w !! u = None /\ summaries w = n /\ deliveries w = m.

Definition Live (u : string) (n m : nat) (w : world) : Prop :=
  is_Some (call_data w !! u) /\ summaries w = n /\ deliveries w = m.

(** At most [n] summaries and [m] deliveries were made. *)
Definition Bounded (n m : nat) (w : world) : Prop :=
  summaries w <= n /\ deliveries w <= m.

(** A call that started with [n] summaries and [m] deliveries made: its
    session is still there and nothing was added, or the session is gone
    and at most one summary and one delivery were added. *)
Definition Phase (u : string) (n m : nat) (w : world) : Prop :=
  Live u n m w \/
  exists n' m', Gone u n' m' w /\ n' <= n + 1 /\ m' <= m + 1.

Section PumpVocabulary.
Context `{Codec} `{Collaborators}.


End PumpVocabulary.

(** ** A concrete scenario

    One codec and one set of collaborators, on which the statements below
    are exercised. The codec prints compact JSON and reads back the
    frames of the scenario. *)

Module Scenario.

Local Open Scope string_scope.

Definition quote : string := String (ascii_of_nat 34) EmptyString.

Definition digits (z : Z) : string :=
  NilZero.string_of_int (Z.to_int z).

Fixpoint dumps (j : json) : string :=
  match j with
  | JNull => "null"
  | JBool true => "true"
  | JBool false => "false"
  | JInt z => digits z
  | JFloat lit => lit
  | JStr s => quote ++ s ++ quote
  | JList items =>
      "[" ++ (fix go (l : list json) : string :=
                match l with
                | [] => ""
                | [x] => dumps x
                | x :: rest => dumps x ++ ", " ++ go rest
                end) items ++ "]"
  | JDict fields =>
      "{" ++ (fix go (l : list (string * json)) : string :=
                match l with
                | [] => ""
                | [(k, v)] => quote ++ k ++ quote ++ ": " ++ dumps v
                | (k, v) :: rest => quote ++ k ++ quote ++ ": " ++ dumps v ++ ", " ++ go rest
                end) fields ++ "}"
  end.

(** The call of the scenario and what arrives during it. *)
Definition call_uuid : string := "call-1".
Definition slot : json := JStr "2024-05-15T14:30:00".
Definition taken_slot : json := JStr "2024-05-16T09:00:00".

Definition event (type : string) (more : list (string * json)) : json :=
  JDict (("type", JStr type) :: more).

Definition tool_call (name : string) (args : json) : json :=
  event "response.function_call_arguments.done"
    [("name", JStr name); ("arguments", JStr (dumps args));
     ("item_id", JStr "item_7"); ("call_id", JStr "call_7")].

Definition check_args : json := JDict [("proposed_time", slot)].
Definition check_taken_args : json := JDict [("proposed_time", taken_slot)].
Definition book_args : json :=
  JDict [("proposed_time", slot); ("email", JStr "guest@site.test")].
Definition no_args : json := JDict [].

Definition speech_started : json := event "input_audio_buffer.speech_started" [].
Definition audio_delta : json := event "response.audio.delta" [("delta", JStr "aGVsbG8=")].
Definition text_delta (d : string) : json :=
  event "response.text.delta" [("item_id", JStr "item_3"); ("delta", JStr d)].
Definition transcription_delta (d : string) : json :=
  event "conversation.item.input_audio_transcription.delta"
    [("item_id", JStr "item_2"); ("delta", JStr d)].
Definition transcription_completed (t : string) : json :=
  event "conversation.item.input_audio_transcription.completed"
    [("item_id", JStr "item_2"); ("transcript", JStr t)].
Definition media_frame : json :=
  JDict [("event", JStr "media"); ("media", JDict [("payload", JStr "AAAA")])].
Definition hangup_frame : json := JDict [("event", JStr "hangup")].

Definition known : list json :=
  [check_args; check_taken_args; book_args; no_args;
   tool_call "check_slot_availability" check_args;
   tool_call "check_slot_availability" check_taken_args;
   tool_call "book_appointment" book_args;
   tool_call "get_available_slots" no_args;
   tool_call "order_pizza" no_args;
   speech_started; audio_delta;
   text_delta "A"; text_delta "B";
   transcription_delta "A"; transcription_delta "B";
   transcription_completed "I am a Contractor";
   transcription_completed "a customer, actually";
   media_frame; hangup_frame].

Definition loads_known (s : string) : option json :=
  find (fun j => String.eqb (dumps j) s) known.

#[export] Instance codec : Codec :=
  {| json_loads := loads_known; json_dumps := dumps; py_str := dumps |}.

(** The collaborators: one free slot, a calendar that books it, a
    directory with no entry that accepts registrations, and a messaging
    channel that works. *)
Definition booking : json := JDict [("htmlLink", JStr "https://calendar.test/e/1")].

#[export] Instance collaborators : Collaborators :=
  {| clock := fun t => Z.of_nat t;
     get_available_slots_reply := fun _ => JList [];
     is_slot_available_reply := fun _ t => py_eq t slot;
     book_slot_reply := fun _ _ _ => booking;
     rag_pipeline := fun _ _ => Returns "We have M6 bolts.";
     supabase_select := fun _ _ _ => Returns [];
     supabase_insert := fun _ _ => Returns tt;
     gemini_generate := fun _ _ => Returns "Product Inquiry Summary";
     pdf_pipeline := fun _ _ => Returns (Some "https://cleanuri.test/x");
     plivo_template := fun _ _ _ _ => Returns tt;
     plivo_text := fun _ _ _ => Returns tt |}.

(** A directory whose backend is down, and one that knows the caller with
    an unfinished registration. *)
Definition directory_down : Collaborators :=
  {| clock := fun t => Z.of_nat t;
     get_available_slots_reply := fun _ => JList [];
     is_slot_available_reply := fun _ t => py_eq t slot;
     book_slot_reply := fun _ _ _ => booking;
     rag_pipeline := fun _ _ => Returns "We have M6 bolts.";
     supabase_select := fun _ _ _ => Raises {| cls := OtherError; text := "connection refused" |};
     supabase_insert := fun _ _ => Raises {| cls := OtherError; text := "connection refused" |};
     gemini_generate := fun _ _ => Returns "Product Inquiry Summary";
     pdf_pipeline := fun _ _ => Returns (Some "https://cleanuri.test/x");
     plivo_template := fun _ _ _ _ => Returns tt;
     plivo_text := fun _ _ _ => Returns tt |}.

Definition pending_row : json :=
  JDict [("phone_number", JStr "+15550100"); ("email", JStr "pending_15550100");
         ("name", JStr "Asha"); ("role", JStr "customer")].

Definition directory_pending : Collaborators :=
  {| clock := fun t => Z.of_nat t;
     get_available_slots_reply := fun _ => JList [];
     is_slot_available_reply := fun _ t => py_eq t slot;
     book_slot_reply := fun _ _ _ => booking;
     rag_pipeline := fun _ _ => Returns "We have M6 bolts.";
     supabase_select := fun _ _ _ => Returns [pending_row];
     supabase_insert := fun _ _ => Returns tt;
     gemini_generate := fun _ _ => Returns "Product Inquiry Summary";
     pdf_pipeline := fun _ _ => Returns (Some "https://cleanuri.test/x");
     plivo_template := fun _ _ _ _ => Returns tt;
     plivo_text := fun _ _ _ => Returns tt |}.

(** What [get_user_details] answers for that caller, and the session
    [home] makes for the call. *)
Definition pending_details : json :=
  JDict [("status", JStr "incomplete");
         ("message", JStr "Registration incomplete. Please fill up the registration form.");
         ("data", pending_row)].

Definition pending_caller : session :=
  {| caller_number := "+15550100"; called_number := "+15550199"; timestamp := 0;
     transcriptions := []; function_calls := []; assistant_responses := [];
     appointments := []; user_exists := true; user_details := pending_details;
     user_role_set := false; system_message := SYSTEM_MESSAGE |}.

(** The session of a first-time caller, and the world at the start of the
    call: both sockets open, the stream started. *)
Definition new_caller : session :=
  {| caller_number := "+15550100"; called_number := "+15550199"; timestamp := 0;
     transcriptions := []; function_calls := []; assistant_responses := [];
     appointments := []; user_exists := false; user_details := JNull;
     user_role_set := false; system_message := NEW_USER_SYSTEM_MESSAGE |}.

Definition start_with (s : session) : world :=
  {| call_data := {[ call_uuid := s ]}; stream_id := Some (JStr "stream-1");
     plivo_sent := []; openai_open := true; openai_sent := []; log := [];
     calls := []; tick := 0 |}.

Definition start : world := start_with new_caller.

(** A world without any session. *)
Definition idle : world :=
  {| call_data := ∅; stream_id := None; plivo_sent := []; openai_open := true;
     openai_sent := []; log := []; calls := []; tick := 0 |}.

End Scenario.

(** * Properties *)

(** ** The monad *)

Section MonadFacts.
Context {A B : Type}.

Lemma bind_ok (c : M A) (k : A -> M B) w a w' :
  c w = (Ok a, w') -> bind c k w = k a w'.
Proof. unfold bind. now intros ->. Qed.

Lemma bind_exn (c : M A) (k : A -> M B) w e w' :
  c w = (Exn e, w') -> bind c k w = (Exn e, w').
Proof. unfold bind. now intros ->. Qed.

Lemma try_except_ok (c : M A) clause h w a w' :
  c w = (Ok a, w') -> try_except c clause h w = (Ok a, w').
Proof. unfold try_except. now intros ->. Qed.

Lemma try_except_caught (c : M A) clause h w e w' :
  c w = (Exn e, w') -> clause e = true -> try_except c clause h w = h e w'.
Proof. unfold try_except. now intros -> ->. Qed.

Lemma exec_bind_ok (c : M A) (k : A -> M B) w a w' :
  c w = (Ok a, w') -> exec (bind c k) w = exec (k a) w'.
Proof. unfold exec, bind. now intros ->. Qed.

Lemma exec_bind_exn (c : M A) (k : A -> M B) w e w' :
  c w = (Exn e, w') -> exec (bind c k) w = w'.
Proof. unfold exec, bind. now intros ->. Qed.

(** What holds after the body of a [try], and is kept by the handler,
    holds after the [try]. *)
Lemma post_try_except (Q : world -> Prop) (c : M A) clause h w :
  Q (exec c w) -> (forall e w', Q w' -> Q (exec (h e) w')) ->
  Q (exec (try_except c clause h) w).
Proof.
  unfold exec, try_except. intros Hc Hh.
  destruct (c w) as [[a|e] w']; cbn in *; [exact Hc|].
  destruct (clause e); [now apply Hh | exact Hc].
Qed.

End MonadFacts.

(** Symbolic execution: unfold the operations of the monad, then compute. *)
Ltac mrun :=
  cbv beta iota zeta delta
    [bind ret raise get_world modify logger record_call external external_try
     try_except try_finally exec eval];
  cbn.

(** ** Invariants of the relay *)

Section Rules.
Context {A B : Type}.

Lemma pure_ret (a : A) : pure (ret a).
Proof. intros w. reflexivity. Qed.

Lemma pure_raise e : pure (@raise A e).
Proof. intros w. reflexivity. Qed.

Lemma pure_bind (c : M A) (k : A -> M B) :
  pure c -> (forall a, pure (k a)) -> pure (bind c k).
Proof.
  intros Hc Hk w. unfold exec, bind. specialize (Hc w). unfold exec in Hc.
  destruct (c w) as [[a|e] w']; cbn in *; subst; [apply Hk | reflexivity].
Qed.

Lemma inv_pure I (c : M A) : pure c -> inv I c.
Proof. intros Hc w HI. now rewrite Hc. Qed.

Lemma inv_ret I (a : A) : inv I (ret a).
Proof. intros w HI. exact HI. Qed.

Lemma inv_raise I e : inv I (@raise A e).
Proof. intros w HI. exact HI. Qed.

Lemma inv_bind I (c : M A) (k : A -> M B) :
  inv I c -> (forall a, inv I (k a)) -> inv I (bind c k).
Proof.
  intros Hc Hk w HI. unfold exec, bind. specialize (Hc w HI). unfold exec in Hc.
  destruct (c w) as [[a|e] w']; cbn in *; [now apply Hk | exact Hc].
Qed.

(** After [get_world] the continuation may use that the world it was
    given satisfies the invariant. *)
Lemma inv_get I (k : world -> M B) :
  (forall w0, I w0 -> inv I (k w0)) -> inv I (bind get_world k).
Proof. intros Hk w HI. exact (Hk w HI w HI). Qed.

Lemma inv_modify I (f : world -> world) :
  (forall w, I w -> I (f w)) -> inv I (modify f).
Proof. intros Hf w HI. now apply Hf. Qed.

Lemma inv_try_except I (c : M A) clause h :
  inv I c -> (forall e, inv I (h e)) -> inv I (try_except c clause h).
Proof.
  intros Hc Hh w HI. unfold exec, try_except. specialize (Hc w HI). unfold exec in Hc.
  destruct (c w) as [[a|e] w']; cbn in *; [exact Hc|].
  destruct (clause e); [now apply Hh | exact Hc].
Qed.

Lemma inv_handle I (hs : list ((exn -> bool) * (exn -> M A))) e :
  Forall (fun p => forall e, inv I (snd p e)) hs -> inv I (handle hs e).
Proof.
  induction 1 as [|[clause h] hs Hh _ IH]; cbn.
  - apply inv_raise.
  - destruct (clause e); [apply Hh | apply IH].
Qed.

Lemma inv_try_handlers I (c : M A) hs :
  inv I c -> Forall (fun p => forall e, inv I (snd p e)) hs -> inv I (try_handlers c hs).
Proof.
  intros Hc Hh w HI. unfold exec, try_handlers. specialize (Hc w HI). unfold exec in Hc.
  destruct (c w) as [[a|e] w']; cbn in *; [exact Hc|].
  exact (inv_handle I hs e Hh w' Hc).
Qed.

Lemma inv_try_finally I (c : M A) f :
  inv I c -> inv I f -> inv I (try_finally c f).
Proof.
  intros Hc Hf w HI. unfold exec, try_finally. specialize (Hc w HI). unfold exec in Hc.
  destruct (c w) as [r w']; cbn in *. specialize (Hf w' Hc). unfold exec in Hf.
  destruct (f w') as [[[]|e] w'']; exact Hf.
Qed.

Lemma inv_external I `{!ViewOnly I} (f : nat -> A) : inv I (external f).
Proof. intros w HI. now apply (view_only w). Qed.

Lemma inv_external_try I `{!ViewOnly I} (f : nat -> outcome A) : inv I (external_try f).
Proof.
  intros w HI. unfold exec, external_try.
  destruct (f (tick w)); now apply (view_only w).
Qed.

End Rules.

Lemma inv_logger I `{!ViewOnly I} l m e : inv I (logger l m e).
Proof. intros w HI. now apply (view_only w). Qed.

Lemma inv_openai_ws_send I `{!ViewOnly I} d : inv I (openai_ws_send d).
Proof.
  intros w HI. unfold exec, openai_ws_send, bind, get_world.
  destruct (openai_open w), d; cbn; trivial. now apply (view_only w).
Qed.

Lemma inv_openai_ws_close I `{!ViewOnly I} : inv I openai_ws_close.
Proof. intros w HI. now apply (view_only w). Qed.

Lemma inv_plivo_ws_send I `{!ViewOnly I} s : inv I (plivo_ws_send s).
Proof. intros w HI. now apply (view_only w). Qed.

Lemma inv_set_stream_id I `{!ViewOnly I} v : inv I (modify (set_stream_id v)).
Proof. intros w HI. now apply (view_only w). Qed.

Lemma pure_plivo_ws_stream_id : pure plivo_ws_stream_id.
Proof. intros w. unfold exec, plivo_ws_stream_id, bind, get_world. now destruct (stream_id w). Qed.

Lemma pure_get_method obj key d : pure (get_method obj key d).
Proof. intros w. now destruct obj. Qed.

Lemma pure_subscript obj key : pure (subscript obj key).
Proof. intros w. destruct obj; try reflexivity. cbn. now destruct (assoc key fields). Qed.

Lemma pure_contains_str n obj : pure (contains_str n obj).
Proof. intros w. now destruct obj. Qed.

Lemma pure_py_add a b : pure (py_add a b).
Proof.
  intros w. unfold py_add.
  destruct a, b; cbn; try reflexivity.
Qed.

Lemma pure_loads `{Codec} v : pure (loads v).
Proof. intros w. destruct v; try reflexivity. cbn. now destruct (json_loads s). Qed.

Lemma pure_b64_reencode v : pure (b64_reencode v).
Proof.
  intros w. destruct v; try reflexivity. cbn.
  destruct (forallb _ _); [|reflexivity].
  now destruct (Base64.a2b_loop _ _).
Qed.

Lemma pure_hash_key k : pure (hash_key k).
Proof. intros w. unfold hash_key. now destruct (hashable k). Qed.

Lemma pure_lower_method v : pure (lower_method v).
Proof. intros w. now destruct v. Qed.

Lemma pure_append_text id d rs : pure (append_text id d rs).
Proof.
  induction rs as [|r rs IH]; cbn.
  - apply pure_ret.
  - destruct (py_eq _ _).
    + apply pure_bind; [apply pure_py_add | intros; apply pure_ret].
    + apply pure_bind; [exact IH | intros; apply pure_ret].
Qed.

Lemma pure_receive a : pure (receive a).
Proof. intros w. now destruct a. Qed.

Ltac head_of t :=
  lazymatch t with
  | ?f _ => head_of f
  | _ => t
  end.

(** One step of the proof that a computation of the relay keeps an
    invariant; [side] proves that a write to the store or to the record
    of the calls keeps it. *)
Ltac inv_step side :=
  lazymatch goal with
  | |- inv _ (bind get_world _) => apply inv_get; intros ? ?
  | |- inv _ (bind _ _) => apply inv_bind; [ | intros ? ]
  | |- inv _ (ret _) => apply inv_ret
  | |- inv _ (raise _) => apply inv_raise
  | |- inv _ (logger _ _ _) => apply inv_logger; exact _
  | |- inv _ (external _) => apply inv_external; exact _
  | |- inv _ (external_try _) => apply inv_external_try; exact _
  | |- inv _ (openai_ws_send _) => apply inv_openai_ws_send; exact _
  | |- inv _ openai_ws_close => apply inv_openai_ws_close; exact _
  | |- inv _ (plivo_ws_send _) => apply inv_plivo_ws_send; exact _
  | |- inv _ (modify (set_stream_id _)) => apply inv_set_stream_id; exact _
  | |- inv _ plivo_ws_stream_id => apply inv_pure, pure_plivo_ws_stream_id
  | |- inv _ (get_method _ _ _) => apply inv_pure, pure_get_method
  | |- inv _ (subscript _ _) => apply inv_pure, pure_subscript
  | |- inv _ (contains_str _ _) => apply inv_pure, pure_contains_str
  | |- inv _ (py_add _ _) => apply inv_pure, pure_py_add
  | |- inv _ (loads _) => apply inv_pure, pure_loads
  | |- inv _ (b64_reencode _) => apply inv_pure, pure_b64_reencode
  | |- inv _ (hash_key _) => apply inv_pure, pure_hash_key
  | |- inv _ (lower_method _) => apply inv_pure, pure_lower_method
  | |- inv _ (append_text _ _ _) => apply inv_pure, pure_append_text
  | |- inv _ (receive _) => apply inv_pure, pure_receive
  | |- inv _ (try_except _ _ _) => apply inv_try_except; [ | intros ? ]
  | |- inv _ (try_finally _ _) => apply inv_try_finally
  | |- inv _ (modify _) => apply inv_modify; side
  | |- inv _ (match ?x with _ => _ end) => destruct x eqn:?
  | |- inv _ ?c => let h := head_of c in unfold h
  end.

Ltac inv_auto side := repeat inv_step side.

#[export] Instance Gone_view u n m : ViewOnly (Gone u n m).
Proof.
  intros w w' Hd Hc. unfold Gone, summaries, deliveries. now rewrite Hd, Hc.
Qed.

#[export] Instance Live_view u n m : ViewOnly (Live u n m).
Proof.
  intros w w' Hd Hc. unfold Live, summaries, deliveries. now rewrite Hd, Hc.
Qed.

(** ** What the relay can raise *)

Section SafeRules.
Context {A B : Type}.

Lemma safe_ret (a : A) : safe (ret a).
Proof. intros w e. discriminate. Qed.

Lemma safe_raise_error c t : safe (@raise A (error c t)).
Proof. intros w e [= <-]. reflexivity. Qed.

Lemma safe_raise_caught e : is_Exception e = true -> safe (@raise A e).
Proof. intros He w e' [= <-]. exact He. Qed.

Lemma safe_bind (c : M A) (k : A -> M B) :
  safe c -> (forall a, safe (k a)) -> safe (bind c k).
Proof.
  intros Hc Hk w e. unfold eval, bind. specialize (Hc w). unfold eval in Hc.
  destruct (c w) as [[a|e'] w']; cbn in *.
  - apply Hk.
  - intros [= <-]. now apply Hc.
Qed.

Lemma safe_get (k : world -> M B) :
  (forall w0, safe (k w0)) -> safe (bind get_world k).
Proof. intros Hk w e. exact (Hk w w e). Qed.

Lemma safe_modify f : safe (modify f).
Proof. intros w e. discriminate. Qed.

Lemma safe_external (f : nat -> A) : safe (external f).
Proof. intros w e. discriminate. Qed.

Lemma safe_external_try (f : nat -> outcome A) : safe (external_try f).
Proof.
  intros w e. unfold eval, external_try. destruct (f (tick w)); [discriminate|].
  intros [= <-]. reflexivity.
Qed.

Lemma safe_try_except (c : M A) clause h :
  safe c -> (forall e, clause e = true -> safe (h e)) -> safe (try_except c clause h).
Proof.
  intros Hc Hh w e. unfold eval, try_except. specialize (Hc w). unfold eval in Hc.
  destruct (c w) as [[a|e'] w']; cbn in *; [discriminate|].
  destruct (clause e') eqn:Hcl.
  - now apply Hh.
  - intros [= <-]. now apply Hc.
Qed.

(** A [try] whose clause is [except Exception] around a computation that
    only raises exceptions, with a handler that returns, returns. *)
Lemma returns_try_except (c : M A) h :
  safe c -> (forall e, returns (h e)) -> returns (try_except c is_Exception h).
Proof.
  intros Hc Hh w. unfold eval, try_except. specialize (Hc w). unfold eval in Hc.
  destruct (c w) as [[a|e] w']; cbn in *; [now exists a|].
  rewrite (Hc e eq_refl). apply Hh.
Qed.

Lemma returns_ret (a : A) : returns (ret a).
Proof. intros w. now exists a. Qed.

Lemma returns_bind (c : M A) (k : A -> M B) :
  returns c -> (forall a, returns (k a)) -> returns (bind c k).
Proof.
  intros Hc Hk w. unfold eval, bind. destruct (Hc w) as [a Ha]. unfold eval in Ha.
  destruct (c w) as [r w']; cbn in *; subst. apply Hk.
Qed.

End SafeRules.

Lemma returns_logger l m e : returns (logger l m e).
Proof. intros w. now exists tt. Qed.

Lemma returns_safe {A} (c : M A) : returns c -> safe c.
Proof. intros Hc w e He. destruct (Hc w) as [a Ha]. congruence. Qed.

Ltac safe_step :=
  lazymatch goal with
  | |- safe (bind get_world _) => apply safe_get; intros ?
  | |- safe (bind _ _) => apply safe_bind; [ | intros ? ]
  | |- safe (ret _) => apply safe_ret
  | |- safe (raise (error _ _)) => apply safe_raise_error
  | |- safe (raise _) => apply safe_raise_caught; assumption
  | |- safe (modify _) => apply safe_modify
  | |- safe (external _) => apply safe_external
  | |- safe (external_try _) => apply safe_external_try
  | |- safe (try_except _ _ _) => apply safe_try_except; [ | intros ? ? ]
  | |- safe (match ?x with _ => _ end) => destruct x eqn:?
  | |- safe ?c => let h := head_of c in unfold h
  end.

Ltac safe_auto := repeat safe_step.

Section SafeRelay.
Context `{Codec} `{Collaborators}.




End SafeRelay.

(** ** Base64 *)

Module Base64Facts.
Import Base64.
Local Open Scope N_scope.

Lemma below_64 (P : N -> Prop) :
  (forall k : nat, (k < 64)%nat -> P (N.of_nat k)) -> forall i, i < 64 -> P i.
Proof.
  intros Hall i Hi. rewrite <- (N2Nat.id i). apply Hall. lia.
Qed.

Lemma table_a2b_b2a i : i < 64 -> table_a2b (table_b2a i) = Some i.
Proof.
  revert i. apply below_64. intros k Hk.
  do 64 (destruct k as [|k]; [vm_compute; reflexivity|]). lia.
Qed.

Lemma table_b2a_not_pad i : i < 64 -> Ascii.eqb (table_b2a i) PAD = false.
Proof.
  revert i. apply below_64. intros k Hk.
  do 64 (destruct k as [|k]; [vm_compute; reflexivity|]). lia.
Qed.

Lemma table_b2a_ascii i : i < 64 -> is_ascii (table_b2a i) = true.
Proof.
  revert i. apply below_64. intros k Hk.
  do 64 (destruct k as [|k]; [vm_compute; reflexivity|]). lia.
Qed.

(** A character of the alphabet feeds its value to the decoder. *)
Lemma a2b_loop_data i rest st :
  i < 64 -> a2b_loop (table_b2a i :: rest) st = a2b_loop rest (a2b_data i st).
Proof.
  intros Hi. cbn [a2b_loop]. now rewrite table_b2a_not_pad, table_a2b_b2a.
Qed.

Lemma byte_bound a : N_of_ascii a < 256.
Proof. apply N_ascii_bounded. Qed.

Lemma ascii_back a n : n = N_of_ascii a -> ascii_of_N n = a.
Proof. intros ->. apply ascii_N_embedding. Qed.

Lemma list_ind3 {A} (P : list A -> Prop) :
  P [] -> (forall a, P [a]) -> (forall a b, P [a; b]) ->
  (forall a b c rest, P rest -> P (a :: b :: c :: rest)) ->
  forall l, P l.
Proof.
  intros H0 H1 H2 H3.
  fix IH 1. intros [|a [|b [|c rest]]].
  - exact H0.
  - apply H1.
  - apply H2.
  - apply H3, IH.
Qed.

Ltac bound_bytes :=
  repeat match goal with
  | |- context [N_of_ascii ?a] =>
      let Hb := fresh "Hb" in
      pose proof (byte_bound a) as Hb; generalize dependent (N_of_ascii a); intros
  end.

Ltac sextet := zify; Z.to_euclidean_division_equations; lia.

Ltac fold_bytes :=
  repeat match goal with
  | |- context [ascii_of_N ?n] =>
      match n with
      | context [N_of_ascii ?a] => rewrite (ascii_back a n) by (bound_bytes; sextet)
      end
  end.

(** Decoding what [b64encode] wrote, from the start of a quad, gives the
    bytes back. *)
Lemma a2b_loop_encode data : forall out,
  a2b_loop (b64encode data)
    {| quad_pos := 0; leftchar := 0; pads := 0; bin_data := out |} = Some (out ++ data).
Proof.
  induction data as [|a|a b|a b c rest IH] using list_ind3; intros out.
  - cbn. now rewrite app_nil_r.
  - cbn [b64encode]. rewrite !a2b_loop_data by (bound_bytes; sextet).
    cbn. now fold_bytes.
  - cbn [b64encode]. rewrite !a2b_loop_data by (bound_bytes; sextet).
    cbn. fold_bytes. now rewrite <- app_assoc.
  - cbn [b64encode]. rewrite !a2b_loop_data by (bound_bytes; sextet).
    unfold a2b_data; cbn [quad_pos leftchar bin_data pads].
    rewrite IH. fold_bytes. now rewrite <- !app_assoc.
Qed.

Lemma b64encode_ascii data : forallb is_ascii (b64encode data) = true.
Proof.
  induction data as [|a|a b|a b c rest IH] using list_ind3;
    cbn [b64encode forallb]; rewrite ?IH, ?table_b2a_ascii by (bound_bytes; sextet);
    reflexivity.
Qed.

(** The round trip: [b64decode(b64encode(data)) == data]. *)
Lemma b64decode_b64encode data : b64decode (b64encode data) = Some data.
Proof.
  unfold b64decode. rewrite b64encode_ascii. apply (a2b_loop_encode data []).
Qed.

End Base64Facts.

(** ** The events of the AI session *)

Section Events.
Context `{Codec} `{Collaborators}.

(** A frame that decodes to an object with a text [type] goes to the
    branch of that type. *)
Lemma openai_event_typed m u ev ty w :
  json_loads m = Some (JDict ev) ->
  assoc "type" ev = Some (JStr ty) ->
  openai_event m u w =
  (let response := JDict ev in
   if String.eqb ty "session.updated" then
     logger INFO ("Session updated successfully for call " ++ u) None
   else if String.eqb ty "error" then
     logger ERROR ("Error from OpenAI for call " ++ u ++ ": " ++ py_str response) None
   else if String.eqb ty "response.text.delta" then
     on_text_delta u response
   else if String.eqb ty "response.audio.delta" then
     on_audio_delta response
   else if String.eqb ty "response.function_call_arguments.done" then
     on_function_call u response
   else if String.eqb ty "conversation.item.input_audio_transcription.delta" then
     on_transcription_delta u response
   else if String.eqb ty "conversation.item.input_audio_transcription.completed" then
     on_transcription_completed u response
   else if String.eqb ty "input_audio_buffer.speech_started" then
     on_speech_started
   else ret tt) w.
Proof.
  intros Hm Ht. unfold openai_event, loads, bind at 1. rewrite Hm.
  unfold ret at 1, get_method, bind at 1. rewrite Ht. reflexivity.
Qed.

(** C3 (the code departs from the claim). On a speech-started event, with
    the stream id recorded and the AI socket open, the clear-audio frame
    for that stream is sent to the telephony socket, but nothing is sent
    to the AI session: the cancel message is handed to [send] as a dict,
    which [send] refuses, and the relay logs the [TypeError]. *)
Theorem speech_started_cancel_not_sent m u w ev sid :
  json_loads m = Some (JDict ev) ->
  assoc "type" ev = Some (JStr "input_audio_buffer.speech_started") ->
  stream_id w = Some sid ->
  openai_open w = true ->
  exec (receive_from_openai m u) w =
  push_log {| lvl := ERROR;
              msg := "Error processing OpenAI message for call " ++ u ++ ": ";
              cause := Some (error TypeError "data is a dict-like object") |}
    (push_plivo (json_dumps (clear_audio sid)) w)
  /\ openai_sent (exec (receive_from_openai m u) w) = openai_sent w.
Proof.
  intros Hm Ht Hs Ho.
  assert (Hrun : exec (receive_from_openai m u) w =
    push_log {| lvl := ERROR;
                msg := "Error processing OpenAI message for call " ++ u ++ ": ";
                cause := Some (error TypeError "data is a dict-like object") |}
      (push_plivo (json_dumps (clear_audio sid)) w)).
  { unfold receive_from_openai, exec, try_except.
    rewrite (openai_event_typed _ _ _ _ _ Hm Ht).
    cbn [String.eqb Ascii.eqb Bool.eqb]. cbv zeta.
    unfold on_speech_started, plivo_ws_stream_id, openai_ws_send, plivo_ws_send.
    mrun. rewrite Hs. cbn. rewrite Ho. reflexivity. }
  rewrite Hrun. split; reflexivity.
Qed.

(** C9. An audio delta whose [delta] is base64 text makes the relay send
    exactly one frame to the telephony socket: a [playAudio] frame with
    content type [audio/x-mulaw], sample rate 8000 and, as payload, the
    base64 encoding of the decoded delta; decoding the payload gives the
    decoded audio bytes again. Nothing else changes. *)
Theorem audio_delta_forwarded m u w ev d data :
  json_loads m = Some (JDict ev) ->
  assoc "type" ev = Some (JStr "response.audio.delta") ->
  assoc "delta" ev = Some (JStr d) ->
  Base64.b64decode (list_ascii_of_string d) = Some data ->
  let payload := string_of_list_ascii (Base64.b64encode data) in
  receive_from_openai m u w =
  (Ok tt,
   push_plivo
     (json_dumps
        (JDict [("event", JStr "playAudio");
                ("media", JDict [("contentType", JStr "audio/x-mulaw");
                                 ("sampleRate", JInt 8000);
                                 ("payload", JStr payload)])])) w)
  /\ Base64.b64decode (list_ascii_of_string payload) = Some data.
Proof.
  intros Hm Ht Hd Hdec payload. split.
  - unfold receive_from_openai, try_except.
    rewrite (openai_event_typed _ _ _ _ _ Hm Ht).
    cbn [String.eqb Ascii.eqb Bool.eqb]. cbv zeta.
    unfold on_audio_delta, subscript, b64_reencode, plivo_ws_send.
    mrun. rewrite Hd. cbn.
    unfold Base64.b64decode in Hdec.
    destruct (forallb Base64.is_ascii (list_ascii_of_string d)); [|discriminate].
    rewrite Hdec. reflexivity.
  - unfold payload. rewrite list_ascii_of_string_of_list_ascii.
    apply Base64Facts.b64decode_b64encode.
Qed.

End Events.

(** ** The tool dispatcher *)

Arguments profile_email : simpl never.

Ltac dispatcher_unfold :=
  cbv beta iota zeta delta
    [bind ret raise get_world modify logger record_call external external_try
     try_except exec eval store_session openai_ws_send get_method subscript loads
     contains_str time_time is_slot_available book_slot_handler
     get_available_slots_handler on_function_call dispatch check_slot_availability
     book_appointment record_appointment].

Section Dispatcher.
Context `{Codec} `{Collaborators}.

(** With well-formed details the lookup of the stored email returns, and
    returns [best_email]. *)
Lemma profile_email_run u s d w :
  call_data w !! u = Some s -> details_ok s ->
  profile_email u d w = (Ok (best_email s d), w).
Proof.
  intros Hs Hok. unfold profile_email, best_email, bind, get_world. rewrite Hs.
  destruct (user_exists s); cbn [andb]; [|reflexivity].
  destruct Hok as [-> | (fields & status & -> & Hst & Hdata)]; [reflexivity|].
  destruct (truthy (JDict fields)); [|reflexivity].
  cbn. rewrite Hst. cbn.
  destruct (is_str status "success") eqn:Hsucc.
  - destruct (Hdata eq_refl) as [row Hrow]. rewrite Hrow. cbn.
    unfold field. destruct (assoc "email" row) as [e|]; cbn; [|reflexivity].
    now destruct (truthy e).
  - now destruct (assoc "data" fields) as [[]|].
Qed.

Lemma function_call_typed m u ev w :
  decodes m "response.function_call_arguments.done" ev ->
  receive_from_openai m u w =
  try_except (on_function_call u (JDict ev)) is_Exception
    (fun e =>
       logger ERROR ("Error processing OpenAI message for call " ++ u ++ ": ") (Some e)) w.
Proof.
  intros [Hm Ht]. unfold receive_from_openai, try_except.
  now rewrite (openai_event_typed _ _ _ _ _ Hm Ht).
Qed.


(** The reply to [get_available_slots] when the slot list has a truth
    value of true: the function output, then the response trigger. *)
Lemma slot_list_reply_sent m u w ev a args :
  decodes m "response.function_call_arguments.done" ev ->
  assoc "name" ev = Some (JStr "get_available_slots") ->
  assoc "arguments" ev = Some (JStr a) ->
  json_loads a = Some args ->
  openai_open w = true ->
  truthy (get_available_slots_reply (tick w)) = true ->
  openai_sent (exec (receive_from_openai m u) w) =
  openai_sent w ++
  [json_dumps (function_call_output (get_available_slots_reply (tick w))
                 (field ev "item_id" (JStr "")) (field ev "call_id" (JStr "")));
   json_dumps (response_create
     "Share the available appointment slots with the user. Format the times in a clear, easy-to-understand way.")].
Proof.
  intros Hdec Hname Harg Hargs Hopen Htruthy.
  unfold exec. rewrite (function_call_typed _ _ _ _ Hdec).
  dispatcher_unfold. rewrite Hname, Harg. cbn. rewrite Hargs. cbn.
  rewrite Htruthy. cbn. rewrite Hopen. cbn. rewrite Hopen. cbn.
  now rewrite <- app_assoc.
Qed.

(** A function name outside the four of the dispatcher: nothing is sent,
    nothing is called. *)
Lemma unknown_function_ignored m u w ev a args name :
  decodes m "response.function_call_arguments.done" ev ->
  assoc "name" ev = Some (JStr name) ->
  assoc "arguments" ev = Some (JStr a) ->
  json_loads a = Some args ->
  name <> "search_product_database" -> name <> "get_available_slots" ->
  name <> "check_slot_availability" -> name <> "book_appointment" ->
  openai_sent (exec (receive_from_openai m u) w) = openai_sent w
  /\ calls (exec (receive_from_openai m u) w) = calls w.
Proof.
  intros Hdec Hname Harg Hargs N1 N2 N3 N4.
  apply String.eqb_neq in N1, N2, N3, N4.
  unfold exec. rewrite (function_call_typed _ _ _ _ Hdec).
  dispatcher_unfold. rewrite Hname, Harg. cbn [assoc]. rewrite Hargs.
  cbn [is_str]. rewrite N1, N2, N3, N4. cbn. split; reflexivity.
Qed.

(** C5 (the code departs from the claim). A call of [get_available_slots]
    is dispatched and succeeds, but when the slot list that comes back has
    a truth value of false (an empty list) the relay sends nothing to the
    AI session: neither the function output nor the response trigger. *)
Theorem empty_slot_list_gets_no_reply m u w ev a args :
  decodes m "response.function_call_arguments.done" ev ->
  assoc "name" ev = Some (JStr "get_available_slots") ->
  assoc "arguments" ev = Some (JStr a) ->
  json_loads a = Some args ->
  truthy (get_available_slots_reply (tick w)) = false ->
  receive_from_openai m u w =
  (Ok tt,
   next_tick
     (push_call ListSlots
        (push_log {| lvl := INFO;
                     msg := "Function call: " ++ py_str (JStr "get_available_slots")
                            ++ " for call " ++ u;
                     cause := None |} w)))
  /\ openai_sent (exec (receive_from_openai m u) w) = openai_sent w.
Proof.
  intros Hdec Hname Harg Hargs Hfalsy.
  assert (Hrun : receive_from_openai m u w =
    (Ok tt,
     next_tick
       (push_call ListSlots
          (push_log {| lvl := INFO;
                       msg := "Function call: " ++ py_str (JStr "get_available_slots")
                              ++ " for call " ++ u;
                       cause := None |} w)))).
  { rewrite (function_call_typed _ _ _ _ Hdec).
    dispatcher_unfold. rewrite Hname, Harg. cbn. rewrite Hargs. cbn.
    rewrite Hfalsy. reflexivity. }
  split; [exact Hrun|]. unfold exec. now rewrite Hrun.
Qed.

(** What [book_appointment] books with: the stored email of a fully
    registered caller, else the email of the call, else the placeholder. *)
Lemma book_appointment_calls m u w ev a args t s :
  decodes m "response.function_call_arguments.done" ev ->
  assoc "name" ev = Some (JStr "book_appointment") ->
  assoc "arguments" ev = Some (JStr a) ->
  json_loads a = Some (JDict args) ->
  assoc "proposed_time" args = Some t ->
  call_data w !! u = Some s ->
  details_ok s ->
  calls (exec (receive_from_openai m u) w) =
  calls w ++ [BookSlot t (best_email s (field args "email" placeholder))].
Proof.
  intros Hdec Hname Harg Hargs Ht Hs Hok.
  unfold exec. rewrite (function_call_typed _ _ _ _ Hdec).
  dispatcher_unfold. rewrite Hname, Harg. cbn. rewrite Hargs. cbn. rewrite Ht. cbn.
  erewrite profile_email_run by eassumption. cbn.
  fold (field args "email" (JStr "customer@example.com")). fold placeholder.
  set (email := best_email s _).
  destruct (book_slot_reply (tick w) t email) eqn:Hbook; cbn; try reflexivity.
  all: rewrite ?Hs; cbn.
  all: repeat match goal with
       | |- context [if ?b then _ else _] => destruct b; cbn
       | |- context [match openai_open ?x with _ => _ end] => destruct (openai_open x); cbn
       end; try reflexivity.
Qed.

(** What [check_slot_availability] books with, when the slot is free. *)
Lemma check_slot_calls m u w ev a args t s :
  decodes m "response.function_call_arguments.done" ev ->
  assoc "name" ev = Some (JStr "check_slot_availability") ->
  assoc "arguments" ev = Some (JStr a) ->
  json_loads a = Some (JDict args) ->
  assoc "proposed_time" args = Some t ->
  call_data w !! u = Some s ->
  details_ok s ->
  is_slot_available_reply (tick w) t = true ->
  calls (exec (receive_from_openai m u) w) =
  calls w ++ [CheckSlot t; BookSlot t (best_email s placeholder)].
Proof.
  intros Hdec Hname Harg Hargs Ht Hs Hok Hav.
  unfold exec. rewrite (function_call_typed _ _ _ _ Hdec).
  dispatcher_unfold. rewrite Hname, Harg. cbn. rewrite Hargs. cbn. rewrite Ht. cbn.
  rewrite Hs. cbn. rewrite Hav. cbn.
  erewrite profile_email_run; cycle 1.
  { cbn. apply lookup_insert_eq. }
  { exact Hok. }
  change (best_email (with_function_calls _ s) ?d) with (best_email s d).
  fold placeholder. set (email := best_email s _). cbn. rewrite lookup_insert_eq. cbn.
  destruct (book_slot_reply (S (S (tick w))) t email) eqn:Hbook; cbn;
    rewrite <- ?app_assoc; try reflexivity.
  all: repeat match goal with
       | |- context [if ?b then _ else _] => destruct b; cbn
       | |- context [match openai_open ?x with _ => _ end] => destruct (openai_open x); cbn
       end; rewrite <- ?app_assoc; try reflexivity.
Qed.

End Dispatcher.

(** ** Fragments *)

Lemma string_app_assoc (a b c : string) : ((a ++ b) ++ c = a ++ b ++ c)%string.
Proof.
  induction a as [|x a IH]; [reflexivity|].
  change (String x ((a ++ b) ++ c) = String x (a ++ b ++ c))%string. now rewrite IH.
Qed.

Lemma py_eq_refl id : hashable id = true -> py_eq id id = true.
Proof.
  destruct id; cbn; try discriminate; intros _;
    rewrite ?String.eqb_refl, ?Z.eqb_refl; reflexivity.
Qed.

Lemma dict_get_set {A} id (v : A) d :
  py_eq id id = true -> dict_get id (dict_set id v d) = Some v.
Proof.
  intros Hid. induction d as [|[k v0] d IH]; cbn.
  - now rewrite Hid.
  - destruct (py_eq k id) eqn:Hk; cbn; now rewrite Hk.
Qed.

#[export] Instance holds_fragments_view u tr : ViewOnly (holds_fragments u tr).
Proof. intros w w' Hd _. unfold holds_fragments. now rewrite Hd. Qed.

Section Fragments.
Context `{Codec} `{Collaborators}.

Lemma event_typed m u ev ty w :
  decodes m ty ev ->
  receive_from_openai m u w =
  try_except
    (let response := JDict ev in
     if String.eqb ty "session.updated" then
       logger INFO ("Session updated successfully for call " ++ u) None
     else if String.eqb ty "error" then
       logger ERROR ("Error from OpenAI for call " ++ u ++ ": " ++ py_str response) None
     else if String.eqb ty "response.text.delta" then
       on_text_delta u response
     else if String.eqb ty "response.audio.delta" then
       on_audio_delta response
     else if String.eqb ty "response.function_call_arguments.done" then
       on_function_call u response
     else if String.eqb ty "conversation.item.input_audio_transcription.delta" then
       on_transcription_delta u response
     else if String.eqb ty "conversation.item.input_audio_transcription.completed" then
       on_transcription_completed u response
     else if String.eqb ty "input_audio_buffer.speech_started" then
       on_speech_started
     else ret tt) is_Exception
    (fun e =>
       logger ERROR ("Error processing OpenAI message for call " ++ u ++ ": ") (Some e)) w.
Proof.
  intros [Hm Ht]. unfold receive_from_openai, try_except.
  now rewrite (openai_event_typed _ _ _ _ _ Hm Ht).
Qed.

(** One transcription delta appends its text to the fragment. *)
Lemma transcription_delta_appends m u w ev id a p s :
  decodes m "conversation.item.input_audio_transcription.delta" ev ->
  assoc "item_id" ev = Some id -> hashable id = true ->
  assoc "delta" ev = Some (JStr a) ->
  call_data w !! u = Some s ->
  fragment_text id s = JStr p ->
  exists s', call_data (exec (receive_from_openai m u) w) !! u = Some s'
             /\ fragment_text id s' = JStr (p ++ a).
Proof.
  intros Hdec Hid Hh Ha Hs Hp. unfold exec. rewrite (event_typed _ _ _ _ _ Hdec).
  cbn [String.eqb Ascii.eqb Bool.eqb]. cbv zeta.
  unfold on_transcription_delta, hash_key, get_method, store_session.
  mrun. rewrite Hid, Ha, Hs, Hh. cbn.
  unfold fragment_text in *.
  destruct (dict_get id (transcriptions s)) as [t|] eqn:Hget; cbn.
  - cbn in Hp. rewrite Hp. cbn. rewrite lookup_insert_eq.
    eexists; split; [reflexivity|]. cbn.
    now rewrite dict_get_set by now apply py_eq_refl.
  - rewrite lookup_insert_eq. eexists; split; [reflexivity|]. cbn.
    rewrite dict_get_set by now apply py_eq_refl. cbn. now injection Hp as <-.
Qed.

Lemma append_text_found id a p rs r w :
  find (fun r => py_eq (ar_item_id r) id) rs = Some r ->
  ar_text r = JStr p ->
  exists rs' r',
    append_text id (JStr a) rs w = (Ok rs', w)
    /\ find (fun r => py_eq (ar_item_id r) id) rs' = Some r'
    /\ ar_text r' = JStr (p ++ a).
Proof.
  revert r. induction rs as [|x rs IH]; cbn; [discriminate|]. intros r.
  destruct (py_eq (ar_item_id x) id) eqn:Hx.
  - intros [= <-] Hp. rewrite Hp. cbn. do 2 eexists. split; [reflexivity|].
    cbn. rewrite Hx. split; reflexivity.
  - intros Hf Hp. destruct (IH r Hf Hp) as (rs' & r' & Hrun & Hf' & Hp').
    exists (x :: rs'), r'. unfold bind. rewrite Hrun. split; [reflexivity|].
    cbn [find]. rewrite Hx. split; assumption.
Qed.

Lemma find_none_existsb {A} (f : A -> bool) l : find f l = None -> existsb f l = false.
Proof. induction l as [|x l IH]; cbn; [reflexivity|]. now destruct (f x). Qed.

Lemma find_some_existsb {A} (f : A -> bool) l x : find f l = Some x -> existsb f l = true.
Proof.
  induction l as [|y l IH]; cbn; [discriminate|]. destruct (f y); [reflexivity|]. exact IH.
Qed.

Lemma find_app_new {A} (f : A -> bool) l x :
  find f l = None -> f x = true -> find f (l ++ [x]) = Some x.
Proof.
  induction l as [|y l IH]; cbn; [now intros _ ->|].
  destruct (f y); [discriminate|]. exact IH.
Qed.

(** One text delta of the assistant appends its text to the fragment. *)
Lemma text_delta_appends m u w ev id a p s :
  decodes m "response.text.delta" ev ->
  assoc "item_id" ev = Some id -> hashable id = true ->
  assoc "delta" ev = Some (JStr a) ->
  call_data w !! u = Some s ->
  response_text id s = JStr p ->
  exists s', call_data (exec (receive_from_openai m u) w) !! u = Some s'
             /\ response_text id s' = JStr (p ++ a).
Proof.
  intros Hdec Hid Hh Ha Hs Hp. unfold exec. rewrite (event_typed _ _ _ _ _ Hdec).
  cbn [String.eqb Ascii.eqb Bool.eqb]. cbv zeta.
  unfold on_text_delta, get_method, store_session, time_time.
  mrun. rewrite Hs. cbn. rewrite Hid, Ha. cbn.
  unfold response_text in *.
  destruct (find _ (assistant_responses s)) as [r|] eqn:Hfind.
  - rewrite (find_some_existsb _ _ _ Hfind). cbn.
    destruct (append_text_found id a p _ r w Hfind Hp) as (rs' & r' & Hrun & Hf' & Hp').
    rewrite Hrun. cbn. rewrite lookup_insert_eq. eexists; split; [reflexivity|].
    cbn. now rewrite Hf'.
  - rewrite (find_none_existsb _ _ Hfind). cbn. rewrite lookup_insert_eq.
    eexists; split; [reflexivity|]. cbn.
    rewrite find_app_new; [|assumption|cbn; now apply py_eq_refl].
    cbn. now injection Hp as <-.
Qed.

Ltac frag_side :=
  let w := fresh "w" in
  intros w; unfold holds_fragments; cbn;
  first [ intros (? & ? & ?); eexists; split; [apply lookup_insert_eq | reflexivity]
        | trivial ].

(** A completed transcription stores its final text in place of what was
    accumulated, and marks the fragment complete; the capture of the role
    that may follow does not touch it. *)
Lemma transcription_completed_overwrites m u w ev id final s :
  decodes m "conversation.item.input_audio_transcription.completed" ev ->
  assoc "item_id" ev = Some id -> hashable id = true ->
  assoc "transcript" ev = Some (JStr final) ->
  call_data w !! u = Some s ->
  exists s', call_data (exec (receive_from_openai m u) w) !! u = Some s'
             /\ dict_get id (transcriptions s') =
                Some {| t_text := JStr final; t_complete := true |}.
Proof.
  intros Hdec Hid Hh Hfin Hs.
  set (tr := dict_set id {| t_text := JStr final; t_complete := true |} (transcriptions s)).
  cut (holds_fragments u tr (exec (receive_from_openai m u) w)).
  { intros (s' & Hs' & Htr). exists s'. split; [exact Hs'|].
    rewrite Htr. apply dict_get_set. now apply py_eq_refl. }
  unfold exec. rewrite (event_typed _ _ _ _ _ Hdec).
  cbn [String.eqb Ascii.eqb Bool.eqb]. cbv zeta.
  unfold on_transcription_completed.
  apply (post_try_except (holds_fragments u tr));
    [|intros e w' Hw'; now apply (view_only w')].
  do 2 (erewrite exec_bind_ok by (cbn; rewrite ?Hid, ?Hfin; reflexivity)).
  erewrite exec_bind_ok by reflexivity. rewrite Hs.
  erewrite exec_bind_ok by (unfold hash_key; rewrite Hh; reflexivity).
  erewrite exec_bind_ok by reflexivity.
  lazymatch goal with
  | |- ?I (exec ?c ?w1) => cut (inv I c); [intros Hinv; apply (Hinv w1)|]
  end.
  - eexists. split; [apply lookup_insert_eq | reflexivity].
  - inv_auto frag_side.
Qed.

(** C7. Fragments accumulate in order. Two deltas for one utterance id,
    the first with text [a] and the second with text [b], leave the text
    accumulated before them followed by [a] and then [b] (so ["AB"] for a
    new utterance): for the transcription of the user and for the text of
    the assistant alike. A transcription-completed event stores its final
    text in place of the accumulated one and marks the fragment
    complete. *)
Theorem fragments_accumulate_in_order :
  (forall m1 m2 u w e1 e2 id a b p s,
     decodes m1 "conversation.item.input_audio_transcription.delta" e1 ->
     decodes m2 "conversation.item.input_audio_transcription.delta" e2 ->
     assoc "item_id" e1 = Some id -> assoc "item_id" e2 = Some id ->
     hashable id = true ->
     assoc "delta" e1 = Some (JStr a) -> assoc "delta" e2 = Some (JStr b) ->
     call_data w !! u = Some s ->
     fragment_text id s = JStr p ->
     exists s',
       call_data (exec (receive_from_openai m2 u) (exec (receive_from_openai m1 u) w)) !! u
       = Some s'
       /\ fragment_text id s' = JStr (p ++ a ++ b)) /\
  (forall m1 m2 u w e1 e2 id a b p s,
     decodes m1 "response.text.delta" e1 ->
     decodes m2 "response.text.delta" e2 ->
     assoc "item_id" e1 = Some id -> assoc "item_id" e2 = Some id ->
     hashable id = true ->
     assoc "delta" e1 = Some (JStr a) -> assoc "delta" e2 = Some (JStr b) ->
     call_data w !! u = Some s ->
     response_text id s = JStr p ->
     exists s',
       call_data (exec (receive_from_openai m2 u) (exec (receive_from_openai m1 u) w)) !! u
       = Some s'
       /\ response_text id s' = JStr (p ++ a ++ b)) /\
  (forall m u w ev id final s,
     decodes m "conversation.item.input_audio_transcription.completed" ev ->
     assoc "item_id" ev = Some id -> hashable id = true ->
     assoc "transcript" ev = Some (JStr final) ->
     call_data w !! u = Some s ->
     exists s',
       call_data (exec (receive_from_openai m u) w) !! u = Some s'
       /\ dict_get id (transcriptions s') =
          Some {| t_text := JStr final; t_complete := true |}).
Proof.
  split; [|split].
  - intros m1 m2 u w e1 e2 id a b p s D1 D2 I1 I2 Hh A B Hs Hp.
    destruct (transcription_delta_appends m1 u w e1 id a p s D1 I1 Hh A Hs Hp)
      as (s1 & Hs1 & Hp1).
    destruct (transcription_delta_appends m2 u _ e2 id b _ s1 D2 I2 Hh B Hs1 Hp1)
      as (s2 & Hs2 & Hp2).
    exists s2. split; [exact Hs2|]. now rewrite Hp2, string_app_assoc.
  - intros m1 m2 u w e1 e2 id a b p s D1 D2 I1 I2 Hh A B Hs Hp.
    destruct (text_delta_appends m1 u w e1 id a p s D1 I1 Hh A Hs Hp)
      as (s1 & Hs1 & Hp1).
    destruct (text_delta_appends m2 u _ e2 id b _ s1 D2 I2 Hh B Hs1 Hp1)
      as (s2 & Hs2 & Hp2).
    exists s2. split; [exact Hs2|]. now rewrite Hp2, string_app_assoc.
  - intros. eapply transcription_completed_overwrites; eassumption.
Qed.

End Fragments.

(** ** The email of a booking *)

Lemma prefix_app (p x : string) : String.prefix p (p ++ x) = true.
Proof.
  induction p as [|c p IH]; [now destruct x|].
  change (String.prefix (String c p) (String c (p ++ x)) = true).
  cbn [String.prefix]. now destruct (ascii_dec c c).
Qed.

Section BookingEmail.
Context `{Codec} `{Collaborators}.

(** A record whose email is missing, empty or pending makes the lookup
    answer [incomplete]. *)
Lemma get_user_details_incomplete phone w fields rest :
  supabase_select (tick w) "*" phone = Returns (JDict fields :: rest) ->
  truthy (field fields "email" JNull) = false \/
  (exists x, assoc "email" fields = Some (JStr ("pending_" ++ x))) ->
  eval (get_user_details phone) w =
  Ok (JDict [("status", JStr "incomplete");
             ("message", JStr "Registration incomplete. Please fill up the registration form.");
             ("data", JDict fields)]).
Proof.
  intros Hsel Hemail. unfold get_user_details, get_method.
  mrun. rewrite Hsel. cbn. unfold field in Hemail.
  destruct Hemail as [Hfalsy | [x Hx]].
  - now rewrite Hfalsy.
  - rewrite Hx. cbn. now rewrite prefix_app, orb_true_r.
Qed.

(** Without a lookup that answered [success], a booking uses the email
    it was given. *)
Lemma best_email_default s d :
  user_details s = JNull \/
  (exists fields status,
     user_details s = JDict fields /\ assoc "status" fields = Some status /\
     is_str status "success" = false) ->
  best_email s d = d.
Proof.
  unfold best_email. intros [-> | (fields & status & -> & -> & Hst)].
  - now rewrite andb_false_r.
  - destruct (user_exists s && truthy (JDict fields)); [|reflexivity].
    rewrite Hst. now destruct (assoc "data" fields) as [[]|].
Qed.

(** C10, as the code has it. The directory lookup answers [incomplete]
    for a record whose email is missing, empty or starts with [pending_];
    a booking uses the stored email only when the lookup stored with the
    session answered [success]; otherwise [check_slot_availability] books
    with the placeholder address, and [book_appointment] books with the
    email argument of the call when it has one and with the placeholder
    when it has none. *)
Theorem stored_email_only_on_success :
  (forall phone w fields rest,
     supabase_select (tick w) "*" phone = Returns (JDict fields :: rest) ->
     truthy (field fields "email" JNull) = false \/
     (exists x, assoc "email" fields = Some (JStr ("pending_" ++ x))) ->
     eval (get_user_details phone) w =
     Ok (JDict [("status", JStr "incomplete");
                ("message", JStr "Registration incomplete. Please fill up the registration form.");
                ("data", JDict fields)])) /\
  (forall s d,
     user_details s = JNull \/
     (exists fields status,
        user_details s = JDict fields /\ assoc "status" fields = Some status /\
        is_str status "success" = false) ->
     best_email s d = d) /\
  (forall m u w ev a args t s,
     decodes m "response.function_call_arguments.done" ev ->
     assoc "name" ev = Some (JStr "check_slot_availability") ->
     assoc "arguments" ev = Some (JStr a) ->
     json_loads a = Some (JDict args) ->
     assoc "proposed_time" args = Some t ->
     call_data w !! u = Some s ->
     details_ok s ->
     is_slot_available_reply (tick w) t = true ->
     calls (exec (receive_from_openai m u) w) =
     calls w ++ [CheckSlot t; BookSlot t (best_email s placeholder)]) /\
  (forall m u w ev a args t s,
     decodes m "response.function_call_arguments.done" ev ->
     assoc "name" ev = Some (JStr "book_appointment") ->
     assoc "arguments" ev = Some (JStr a) ->
     json_loads a = Some (JDict args) ->
     assoc "proposed_time" args = Some t ->
     call_data w !! u = Some s ->
     details_ok s ->
     calls (exec (receive_from_openai m u) w) =
     calls w ++ [BookSlot t (best_email s (field args "email" placeholder))]).
Proof.
  repeat split.
  - apply get_user_details_incomplete.
  - apply best_email_default.
  - apply check_slot_calls.
  - apply book_appointment_calls.
Qed.

End BookingEmail.

(** ** The capture of the role *)

#[export] Instance role_declared_view u regs : ViewOnly (role_declared u regs).
Proof.
  intros w w' Hd Hc. unfold role_declared, registrations. now rewrite Hd, Hc.
Qed.

Arguments add_phone_with_role : simpl never.

Section RoleCapture.
Context `{Codec} `{Collaborators}.

(** [add_phone_with_role] returns a status, whatever the backend does; it
    leaves the store and the sockets alone and is recorded once. *)
Lemma add_phone_with_role_run phone role w :
  exists msg w',
    add_phone_with_role phone role w =
    (Ok (JDict [("status", JStr (registration_status (tick w) phone role));
                ("message", JStr msg)]), w')
    /\ call_data w' = call_data w
    /\ openai_sent w' = openai_sent w
    /\ openai_open w' = openai_open w
    /\ calls w' = calls w ++ [DirectoryRegister phone role].
Proof.
  unfold add_phone_with_role, registration_status. mrun.
  destruct (supabase_select (tick w) "phone_number" phone) as [[|row rows]|f]; cbn.
  - destruct (supabase_insert (S (tick w)) _) as [[]|f]; cbn;
      do 2 eexists; (split; [reflexivity|]); cbn; auto.
  - do 2 eexists; (split; [reflexivity|]); cbn; auto.
  - do 2 eexists; (split; [reflexivity|]); cbn; auto.
Qed.

Lemma registrations_app w c :
  registrations (push_call c w) = registrations w ++ (if is_register c then [c] else []).
Proof.
  unfold registrations. cbn. rewrite List.filter_app. cbn. now destruct (is_register c).
Qed.

Lemma role_capture_registers m u w ev id text role s :
  decodes m "conversation.item.input_audio_transcription.completed" ev ->
  assoc "item_id" ev = Some id -> hashable id = true ->
  assoc "transcript" ev = Some (JStr text) ->
  call_data w !! u = Some s ->
  user_exists s = false -> user_role_set s = false ->
  declared_role text = Some role ->
  openai_open w = true ->
  let w' := exec (receive_from_openai m u) w in
  let status := registration_status (tick w) (caller_number s) role in
  registrations w' = registrations w ++ [DirectoryRegister (caller_number s) role]
  /\ (status = "created" \/ status = "exists" ->
      (exists s', call_data w' !! u = Some s'
                  /\ user_role_set s' = true
                  /\ system_message s' = SYSTEM_MESSAGE)
      /\ openai_sent w' = openai_sent w ++ [json_dumps (session_update SYSTEM_MESSAGE)]).
Proof.
  intros Hdec Hid Hh Htext Hs Hex Hrole Hdecl Hopen w' status. subst w'.
  unfold exec. rewrite (event_typed _ _ _ _ _ Hdec).
  cbn [String.eqb Ascii.eqb Bool.eqb]. cbv zeta.
  unfold on_transcription_completed, hash_key, get_method, store_session, lower_method,
    subscript, openai_ws_send.
  mrun. rewrite Hid, Htext, Hs, Hh. cbn. rewrite Hex, Hrole. cbn.
  unfold declared_role in Hdecl.
  assert (Hany : is_substring "contractor" (lower text)
                 || is_substring "customer" (lower text) = true).
  { destruct (is_substring "contractor" (lower text)); [reflexivity|].
    now destruct (is_substring "customer" (lower text)). }
  assert (Hr : (if is_substring "contractor" (lower text)
                then "contractor" else "customer") = role).
  { destruct (is_substring "contractor" (lower text)); [congruence|].
    destruct (is_substring "customer" (lower text)); congruence. }
  rewrite Hany, Hr.
  match goal with
  | |- context [add_phone_with_role ?p ?r ?w1] =>
      destruct (add_phone_with_role_run p r w1) as (msg & w2 & Hrun & Hcd & Hsent & Hop & Hcalls);
      rewrite Hrun
  end.
  cbn in Hcd, Hsent, Hop, Hcalls. cbn [assoc String.eqb Ascii.eqb Bool.eqb].
  cbn [tick set_call_data]. fold status.
  assert (Hregs : registrations w2 = registrations w ++ [DirectoryRegister (caller_number s) role]).
  { unfold registrations. rewrite Hcalls, List.filter_app. reflexivity. }
  destruct (is_str (JStr status) "created" || is_str (JStr status) "exists") eqn:Hst.
  - rewrite Hop, Hopen. cbn. rewrite Hop, Hopen. cbn.
    split; [exact Hregs|]. intros _. split.
    + rewrite Hcd, lookup_insert_eq. eexists. split; [reflexivity|]. split; reflexivity.
    + now rewrite Hsent.
  - cbn. split; [exact Hregs|].
    intros [Hc|Hc]; rewrite Hc in Hst; discriminate.
Qed.

Ltac role_side :=
  unfold role_declared, registrations in *; cbn in *;
  repeat match goal with
         | Hc : (exists _, _) /\ _ |- _ => destruct Hc as [(? & ? & ?) ?]
         end;
  intros ? [(? & ? & ?) ?];
  simplify_eq; cbn in *;
  rewrite ?List.filter_app; cbn; rewrite ?app_nil_r, ?lookup_insert_eq;
  first [ match goal with
          | Hf : user_role_set ?s = true, Hb : context [user_role_set ?s] |- _ =>
              rewrite Hf, andb_false_r in Hb; discriminate
          end
        | congruence
        | split; [eexists; split; [reflexivity | cbn; congruence] | congruence]
        | split; [eauto | congruence] ].

(** Once the role is declared, no message of the AI session makes the
    relay register the caller again. *)
Lemma receive_from_openai_role_declared u regs m :
  inv (role_declared u regs) (receive_from_openai m u).
Proof.
  inv_auto role_side.
Qed.

Lemma openai_loop_role_declared u regs later :
  inv (role_declared u regs) (openai_loop (map Arrives later) u).
Proof.
  induction later as [|m later IH]; cbn [map openai_loop].
  - apply inv_ret.
  - apply inv_bind; [apply inv_pure, pure_receive | intros message].
    apply inv_bind; [apply receive_from_openai_role_declared | intros _; exact IH].
Qed.

(** C6. For a caller without directory entry who has not declared a role,
    a completed transcription whose lowercased text names a role makes
    the relay register the caller exactly once, as a contractor when
    [contractor] occurs and as a customer otherwise. When the directory
    answers [created] or [exists], the session has its role flag set and
    the standard instructions, one session update with those instructions
    is sent to the AI session, and no later message of the AI session for
    this call adds a registration. *)
Theorem role_captured_once m u w ev id text role s :
  decodes m "conversation.item.input_audio_transcription.completed" ev ->
  assoc "item_id" ev = Some id -> hashable id = true ->
  assoc "transcript" ev = Some (JStr text) ->
  call_data w !! u = Some s ->
  user_exists s = false -> user_role_set s = false ->
  declared_role text = Some role ->
  openai_open w = true ->
  let w' := exec (receive_from_openai m u) w in
  let status := registration_status (tick w) (caller_number s) role in
  registrations w' = registrations w ++ [DirectoryRegister (caller_number s) role]
  /\ (status = "created" \/ status = "exists" ->
      (exists s', call_data w' !! u = Some s'
                  /\ user_role_set s' = true
                  /\ system_message s' = SYSTEM_MESSAGE)
      /\ openai_sent w' = openai_sent w ++ [json_dumps (session_update SYSTEM_MESSAGE)]
      /\ forall later,
           registrations (exec (openai_loop (map Arrives later) u) w') = registrations w').
Proof.
  intros Hdec Hid Hh Htext Hs Hex Hrole Hdecl Hopen w' status.
  destruct (role_capture_registers m u w ev id text role s
              Hdec Hid Hh Htext Hs Hex Hrole Hdecl Hopen) as [Hregs Hok].
  split; [exact Hregs|]. intros Hst.
  destruct (Hok Hst) as [(s' & Hs' & Hflag & Hmsg) Hsent].
  split; [now exists s'|]. split; [exact Hsent|].
  intros later.
  apply (openai_loop_role_declared u (registrations w') later w').
  split; [now exists s' | reflexivity].
Qed.

End RoleCapture.

(** ** The post-call processing *)

#[export] Instance Bounded_view n m : ViewOnly (Bounded n m).
Proof.
  intros w w' _ Hc. unfold Bounded, summaries, deliveries. now rewrite Hc.
Qed.

Section HoareRules.
Context {A B : Type}.

Lemma hoare_weaken (P Q Q' : world -> Prop) (c : M A) :
  hoare P c Q -> (forall w, Q w -> Q' w) -> hoare P c Q'.
Proof. intros Hc HQ w HP. apply HQ, Hc, HP. Qed.

Lemma hoare_bind (P R Q : world -> Prop) (c : M A) (k : A -> M B) :
  hoare P c R -> (forall w, R w -> Q w) -> (forall a, hoare R (k a) Q) ->
  hoare P (bind c k) Q.
Proof.
  intros Hc HR Hk w HP. unfold exec, bind. specialize (Hc w HP). unfold exec in Hc.
  destruct (c w) as [[a|e] w']; cbn in *; [now apply Hk | now apply HR].
Qed.

Lemma hoare_try_except (P Q : world -> Prop) (c : M A) clause h :
  hoare P c Q -> (forall e, inv Q (h e)) -> hoare P (try_except c clause h) Q.
Proof.
  intros Hc Hh w HP. unfold exec, try_except. specialize (Hc w HP). unfold exec in Hc.
  destruct (c w) as [[a|e] w']; cbn in *; [exact Hc|].
  destruct (clause e); [now apply Hh | exact Hc].
Qed.

Lemma hoare_try_finally (P R Q : world -> Prop) (c : M A) f :
  hoare P c R -> hoare R f Q -> hoare P (try_finally c f) Q.
Proof.
  intros Hc Hf w HP. unfold exec, try_finally. specialize (Hc w HP). unfold exec in Hc.
  destruct (c w) as [r w']; cbn in *. specialize (Hf w' Hc). unfold exec in Hf.
  destruct (f w') as [[[]|e] w'']; exact Hf.
Qed.

Lemma hoare_handle (R Q : world -> Prop) (hs : list ((exn -> bool) * (exn -> M A))) e :
  (forall w, R w -> Q w) ->
  Forall (fun p => forall e, hoare R (snd p e) Q) hs -> hoare R (handle hs e) Q.
Proof.
  intros HR. induction 1 as [|[clause h] hs Hh _ IH]; cbn.
  - intros w Hw. now apply HR.
  - destruct (clause e); [apply Hh | apply IH].
Qed.

Lemma hoare_try_handlers (P R Q : world -> Prop) (c : M A) hs :
  hoare P c R -> (forall w, R w -> Q w) ->
  Forall (fun p => forall e, hoare R (snd p e) Q) hs ->
  hoare P (try_handlers c hs) Q.
Proof.
  intros Hc HR Hh w HP. unfold exec, try_handlers. specialize (Hc w HP).
  unfold exec in Hc. destruct (c w) as [[a|e] w']; cbn in *; [now apply HR|].
  exact (hoare_handle R Q hs e HR Hh w' Hc).
Qed.

End HoareRules.

Ltac calls_side :=
  unfold Bounded, Gone, Live, summaries, deliveries in *; cbn in *;
  intros; rewrite ?List.filter_app; cbn; rewrite ?app_nil_r, ?lookup_insert_eq;
  first [ intuition congruence | intuition eauto ].

Section PostCall.
Context `{Codec} `{Collaborators}.

Lemma inv_user_events I `{!ViewOnly I} ts : inv I (user_events ts).
Proof.
  induction ts as [|[id t] ts IH]; cbn; [apply inv_ret|].
  apply inv_bind; [apply inv_external; exact _ | intros now].
  apply inv_bind; [exact IH | intros; apply inv_ret].
Qed.

Lemma inv_assistant_events I `{!ViewOnly I} rs : inv I (assistant_events rs).
Proof.
  induction rs as [|r rs IH]; cbn; [apply inv_ret|].
  apply inv_bind; [apply inv_external; exact _ | intros now].
  apply inv_bind; [exact IH | intros; apply inv_ret].
Qed.

Lemma inv_function_call_events I `{!ViewOnly I} cs : inv I (function_call_events cs).
Proof.
  induction cs as [|c cs IH]; cbn; [apply inv_ret|].
  apply inv_bind; [apply inv_external; exact _ | intros now].
  apply inv_bind; [exact IH | intros; apply inv_ret].
Qed.

Lemma inv_appointment_events I `{!ViewOnly I} aps : inv I (appointment_events aps).
Proof.
  induction aps as [|a aps IH]; cbn; [apply inv_ret|].
  apply inv_bind; [apply inv_external; exact _ | intros now].
  apply inv_bind; [exact IH | intros; apply inv_ret].
Qed.

Lemma pure_render_event e : pure (render_event e).
Proof.
  destruct e; cbn; try apply pure_ret.
  - repeat match goal with
           | |- pure (if ?b then _ else _) => destruct b
           | |- pure (bind _ _) => apply pure_bind; [apply pure_get_method | intros]
           | |- pure (ret _) => apply pure_ret
           end.
  - repeat match goal with
           | |- pure (if ?b then _ else _) => destruct b
           | |- pure (match ?b with _ => _ end) => destruct b
           | |- pure (bind _ _) => apply pure_bind; [apply pure_get_method | intros]
           | |- pure (ret _) => apply pure_ret
           end.
Qed.

Lemma pure_render_events es : pure (render_events es).
Proof.
  induction es as [|e es IH]; cbn; [apply pure_ret|].
  apply pure_bind; [apply pure_render_event | intros].
  apply pure_bind; [exact IH | intros; apply pure_ret].
Qed.

(** The summarizer is asked once. *)
Lemma summarize_bound n m transcript :
  hoare (Bounded n m) (generate_inquiry_invoice transcript) (Bounded (S n) m).
Proof.
  unfold generate_inquiry_invoice.
  apply hoare_bind with (R := Bounded (S n) m); [|trivial|intros _].
  - intros w [Hs Hd]. unfold Bounded, summaries, deliveries in *. cbn.
    rewrite !List.filter_app, !length_app. cbn. lia.
  - change (inv (Bounded (S n) m)
              (try_except (external_try (fun t => gemini_generate t transcript)) is_Exception
                 (fun e => logger ERROR "Error generating invoice: " (Some e) ;;
                           ret ("Thank you for your call. (Error generating summary: "
                                ++ exn_text e ++ ")")%string))).
    inv_auto calls_side.
Qed.

Lemma bounded_more n m w : Bounded n m w -> Bounded n (S m) w.
Proof. unfold Bounded. lia. Qed.

Lemma send_link_bound n m r url num :
  hoare (Bounded n m) (send_templated_message r url num) (Bounded n (S m)).
Proof.
  unfold send_templated_message.
  apply hoare_bind with (R := Bounded n (S m)); [|trivial|intros _].
  - intros w [Hs Hd]. unfold Bounded, summaries, deliveries in *. cbn.
    rewrite !List.filter_app, !length_app. cbn. lia.
  - change (inv (Bounded n (S m))
              (try_except (external_try (fun t => plivo_template t r url num)) is_Exception
                 (fun e => logger ERROR "Error sending templated message: " (Some e) ;;
                           raise e))).
    inv_auto calls_side.
Qed.

Lemma send_text_bound n m r body :
  hoare (Bounded n m) (send_simple_whatsapp r body) (Bounded n (S m)).
Proof.
  unfold send_simple_whatsapp.
  apply hoare_bind with (R := Bounded n (S m)); [|trivial|intros _].
  - intros w [Hs Hd]. unfold Bounded, summaries, deliveries in *. cbn.
    rewrite !List.filter_app, !length_app. cbn. lia.
  - change (inv (Bounded n (S m))
              (try_except (external_try (fun t => plivo_text t r body)) is_Exception
                 (fun e => logger ERROR "Error sending simple WhatsApp message: " (Some e) ;;
                           raise e))).
    inv_auto calls_side.
Qed.

(** The summary is delivered at most once: by link, or as text. *)
Lemma deliver_bound n m u caller invoice :
  hoare (Bounded n m) (deliver u caller invoice) (Bounded n (S m)).
Proof.
  unfold deliver.
  destruct (negb (caller =? "")%string && negb (caller =? "unknown")%string).
  - apply hoare_try_except; [|intros e; apply inv_logger; exact _].
    apply hoare_bind with (R := Bounded n m); [|apply bounded_more|intros short_url].
    + change (inv (Bounded n m) (upload_text_to_pdf_and_get_short_url invoice)).
      inv_auto calls_side.
    + assert (Htext : hoare (Bounded n m)
                (send_simple_whatsapp caller invoice ;;
                 logger WARNING ("Sent plain text invoice to " ++ caller
                                 ++ " (PDF creation failed)") None)
                (Bounded n (S m))).
      { apply hoare_bind with (R := Bounded n (S m)); [apply send_text_bound|trivial|].
        intros _. apply inv_logger; exact _. }
      destruct short_url as [url|]; [|exact Htext].
      destruct (negb (url =? "")%string); [|exact Htext].
      apply hoare_bind with (R := Bounded n (S m)); [apply send_link_bound|trivial|].
      intros _. apply inv_logger; exact _.
  - apply hoare_weaken with (Q := Bounded n m); [|apply bounded_more].
    apply inv_logger; exact _.
Qed.

(** The body of the [try]: at most one summary and one delivery. *)
Lemma post_call_bound n m u s :
  hoare (Bounded n m) (post_call u s) (Bounded (S n) (S m)).
Proof.
  assert (Hup : forall w, Bounded n m w -> Bounded (S n) (S m) w)
    by (unfold Bounded; intros; lia).
  assert (Hfull : hoare (Bounded n m)
    (let* users := user_events (transcriptions s) in
     let* assistants := assistant_events (assistant_responses s) in
     let* tools := function_call_events (function_calls s) in
     let* booked := appointment_events (appointments s) in
     let conversation_events := sort_events (users ++ assistants ++ tools ++ booked) in
     let* rendered := render_events conversation_events in
     let transcript_text :=
       ("CALL TRANSCRIPT & CONVERSATION" ++ NL
        ++ "============================" ++ NL ++ NL
        ++ fst rendered ++ appointment_summary (snd rendered))%string in
     let caller := caller_number s in
     logger INFO ("Sending summary to caller number: " ++ caller) None ;;
     let* invoice := generate_inquiry_invoice transcript_text in
     deliver u caller invoice)
    (Bounded (S n) (S m))).
  { apply hoare_bind with (R := Bounded n m);
      [apply inv_user_events; exact _ | exact Hup | intros users].
    apply hoare_bind with (R := Bounded n m);
      [apply inv_assistant_events; exact _ | exact Hup | intros assistants].
    apply hoare_bind with (R := Bounded n m);
      [apply inv_function_call_events; exact _ | exact Hup | intros tools].
    apply hoare_bind with (R := Bounded n m);
      [apply inv_appointment_events; exact _ | exact Hup | intros booked].
    cbv zeta.
    apply hoare_bind with (R := Bounded n m);
      [apply inv_pure, pure_render_events | exact Hup | intros rendered].
    apply hoare_bind with (R := Bounded n m);
      [apply inv_logger; exact _ | exact Hup | intros _].
    apply hoare_bind with (R := Bounded (S n) m);
      [apply summarize_bound | apply bounded_more | intros invoice].
    apply deliver_bound. }
  unfold post_call.
  destruct (transcriptions s), (function_calls s), (assistant_responses s);
    try exact Hfull.
  apply hoare_weaken with (Q := Bounded n m); [|exact Hup].
  change (inv (Bounded n m)
    (logger WARNING ("No conversation data recorded for call " ++ u) None ;;
     let* w := get_world in
     match call_data w !! u with
     | Some _ => del_session u
     | None => ret tt
     end)).
  inv_auto calls_side.
Qed.

End PostCall.

Section SafeFinally.
Context {A : Type}.

Lemma exec_try_finally (c : M A) f w :
  exec (try_finally c f) w = exec f (exec c w).
Proof.
  unfold exec, try_finally. destruct (c w) as [r w']; cbn.
  now destruct (f w') as [[[]|e] w''].
Qed.

Lemma returns_try_finally (c : M A) f :
  returns c -> returns f -> returns (try_finally c f).
Proof.
  intros Hc Hf w. unfold eval, try_finally.
  destruct (Hc w) as [a Ha]. unfold eval in Ha.
  destruct (c w) as [r w']; cbn in *; subst r.
  destruct (Hf w') as [[] Hu]. unfold eval in Hu.
  destruct (f w') as [r' w'']; cbn in *; subst r'. now exists a.
Qed.

End SafeFinally.

Section Cleanup.
Context `{Codec} `{Collaborators}.

Lemma safe_user_events ts : safe (user_events ts).
Proof.
  induction ts as [|[id t] ts IH]; cbn; [apply safe_ret|].
  apply safe_bind; [apply safe_external | intros now].
  apply safe_bind; [exact IH | intros; apply safe_ret].
Qed.

Lemma safe_assistant_events rs : safe (assistant_events rs).
Proof.
  induction rs as [|r rs IH]; cbn; [apply safe_ret|].
  apply safe_bind; [apply safe_external | intros now].
  apply safe_bind; [exact IH | intros; apply safe_ret].
Qed.

Lemma safe_function_call_events cs : safe (function_call_events cs).
Proof.
  induction cs as [|c cs IH]; cbn; [apply safe_ret|].
  apply safe_bind; [apply safe_external | intros now].
  apply safe_bind; [exact IH | intros; apply safe_ret].
Qed.

Lemma safe_appointment_events aps : safe (appointment_events aps).
Proof.
  induction aps as [|a aps IH]; cbn; [apply safe_ret|].
  apply safe_bind; [apply safe_external | intros now].
  apply safe_bind; [exact IH | intros; apply safe_ret].
Qed.

Lemma safe_render_events es : safe (render_events es).
Proof.
  induction es as [|e es IH]; cbn; [apply safe_ret|].
  apply safe_bind; [destruct e; safe_auto | intros].
  apply safe_bind; [exact IH | intros; apply safe_ret].
Qed.

Lemma safe_post_call u s : safe (post_call u s).
Proof.
  pose proof safe_user_events as E1. pose proof safe_assistant_events as E2.
  pose proof safe_function_call_events as E3. pose proof safe_appointment_events as E4.
  pose proof safe_render_events as E5.
  repeat first [ apply E1 | apply E2 | apply E3 | apply E4 | apply E5 | safe_step ].
Qed.

Lemma cleanup_returns u : returns (cleanup u).
Proof.
  intros w. unfold cleanup, del_session. mrun.
  destruct (call_data w !! u) eqn:Hs; cbn; [rewrite Hs|]; now exists tt.
Qed.

Lemma cleanup_absent u w : call_data (exec (cleanup u) w) !! u = None.
Proof.
  unfold cleanup, del_session. mrun.
  destruct (call_data w !! u) eqn:Hs; cbn; [rewrite Hs; cbn|exact Hs].
  apply lookup_delete_eq.
Qed.

Lemma after_call_hangup_unfold u w :
  after_call_hangup u w =
  match call_data w !! u with
  | None => logger WARNING ("No call data found for UUID " ++ u) None w
  | Some call_info =>
      (logger INFO ("Processing after-call actions for " ++ u) None ;;
       try_finally
         (try_except (post_call u call_info) is_Exception
            (fun e =>
               logger ERROR ("Error in after-call processing for call " ++ u ++ ": ")
                 (Some e)))
         (cleanup u)) w
  end.
Proof. unfold after_call_hangup, bind at 1, get_world. now destruct (call_data w !! u). Qed.

(** [after_call_hangup] never raises. *)
Lemma after_call_hangup_returns u : returns (after_call_hangup u).
Proof.
  intros w. unfold eval. rewrite after_call_hangup_unfold.
  destruct (call_data w !! u) as [s|]; [|now exists tt].
  apply (returns_bind (logger _ _ _)); [apply returns_logger | intros _].
  apply returns_try_finally; [|apply cleanup_returns].
  apply returns_try_except; [apply safe_post_call | intros; apply returns_logger].
Qed.

(** With a session, [after_call_hangup] is the body of its [try], then
    the cleanup. *)
Lemma after_call_hangup_live u w s :
  call_data w !! u = Some s ->
  exec (after_call_hangup u) w =
  exec (cleanup u)
    (exec (try_except (post_call u s) is_Exception
             (fun e =>
                logger ERROR ("Error in after-call processing for call " ++ u ++ ": ")
                  (Some e)))
       (push_log {| lvl := INFO;
                    msg := "Processing after-call actions for " ++ u; cause := None |} w)).
Proof.
  intros Hs. unfold exec at 1. rewrite after_call_hangup_unfold, Hs.
  unfold bind, logger, modify. cbn. exact (exec_try_finally _ _ _).
Qed.

(** After [after_call_hangup] the session of the call is gone. *)
Lemma after_call_hangup_absent u w :
  call_data (exec (after_call_hangup u) w) !! u = None.
Proof.
  destruct (call_data w !! u) as [s|] eqn:Hs.
  - rewrite (after_call_hangup_live u w s Hs). apply cleanup_absent.
  - unfold exec. now rewrite after_call_hangup_unfold, Hs.
Qed.

(** Without a session, [after_call_hangup] only logs a warning. *)
Lemma after_call_hangup_gone u w :
  call_data w !! u = None ->
  exec (after_call_hangup u) w =
  push_log {| lvl := WARNING; msg := "No call data found for UUID " ++ u; cause := None |} w.
Proof. intros Hs. unfold exec. rewrite after_call_hangup_unfold, Hs. reflexivity. Qed.

(** A session without transcription, tool call and assistant text is
    dropped: two lines of log, and the deletion. *)
Lemma after_call_hangup_empty u w s :
  call_data w !! u = Some s ->
  transcriptions s = [] -> function_calls s = [] -> assistant_responses s = [] ->
  exec (after_call_hangup u) w =
  set_call_data (fun m => delete u m)
    (push_log {| lvl := WARNING;
                 msg := "No conversation data recorded for call " ++ u; cause := None |}
       (push_log {| lvl := INFO;
                    msg := "Processing after-call actions for " ++ u; cause := None |} w)).
Proof.
  intros Hs Ht Hf Ha. unfold exec. rewrite after_call_hangup_unfold, Hs.
  unfold post_call, cleanup, del_session. rewrite Ht, Hf, Ha. mrun.
  rewrite Hs. cbn. rewrite Hs. cbn. now rewrite lookup_delete_eq.
Qed.

(** C8. Post-call processing always ends with the session of the call
    deleted and never raises, whatever the summarizing and delivering
    collaborators do (the deletion is in the [finally]); and for a session
    without transcription fragments, assistant text and tool-call records
    it calls no collaborator at all: nothing is summarized and nothing is
    delivered. *)
Theorem post_call_always_cleans_up u w :
  call_data (exec (after_call_hangup u) w) !! u = None
  /\ eval (after_call_hangup u) w = Ok tt
  /\ (forall s,
        call_data w !! u = Some s ->
        transcriptions s = [] -> function_calls s = [] -> assistant_responses s = [] ->
        calls (exec (after_call_hangup u) w) = calls w).
Proof.
  split; [apply after_call_hangup_absent|]. split.
  - destruct (after_call_hangup_returns u w) as [[] Hr]. exact Hr.
  - intros s Hs Ht Hf Ha. now rewrite (after_call_hangup_empty u w s Hs Ht Hf Ha).
Qed.

End Cleanup.

(** ** The two pumps and a malformed frame *)

Section Malformed.
Context `{Codec} `{Collaborators}.







End Malformed.

(** ** The statements on the scenario *)

Module Witnesses.
Import Scenario.

Lemma speech_started_cancel_not_sent_witness :
  openai_sent (exec (receive_from_openai (dumps speech_started) call_uuid) start) = [].
Proof.
  apply (speech_started_cancel_not_sent (dumps speech_started) call_uuid start
           [("type", JStr "input_audio_buffer.speech_started")] (JStr "stream-1"));
    reflexivity.
Defined.

Lemma audio_delta_forwarded_witness :
  plivo_sent (exec (receive_from_openai (dumps audio_delta) call_uuid) start) =
  [dumps (JDict [("event", JStr "playAudio");
                 ("media", JDict [("contentType", JStr "audio/x-mulaw");
                                  ("sampleRate", JInt 8000);
                                  ("payload", JStr "aGVsbG8=")])])].
Proof.
  destruct (audio_delta_forwarded (dumps audio_delta) call_uuid start
           [("type", JStr "response.audio.delta"); ("delta", JStr "aGVsbG8=")]
           "aGVsbG8=" (list_ascii_of_string "hello")) as [Hrun _];
    [reflexivity..|].
  unfold exec. rewrite Hrun. reflexivity.
Defined.

(** C10, as stated, fails: the caller's record has a pending email, the
    lookup answers [incomplete], and [book_appointment] books with the
    email of the call, not with the placeholder. *)
Lemma pending_caller_books_with_given_email :
  @eval _ (@get_user_details directory_pending "+15550100") idle = Ok pending_details
  /\ calls (exec (@receive_from_openai codec directory_pending
                    (dumps (tool_call "book_appointment" book_args)) call_uuid)
              (start_with pending_caller))
     = [BookSlot slot (JStr "guest@site.test")]
  /\ JStr "guest@site.test" <> placeholder.
Proof. split; [reflexivity|]. split; [reflexivity | discriminate]. Qed.


Lemma empty_slot_list_gets_no_reply_witness :
  openai_sent (exec (receive_from_openai
                       (dumps (tool_call "get_available_slots" no_args)) call_uuid)
                 start) = [].
Proof.
  apply (empty_slot_list_gets_no_reply
           (dumps (tool_call "get_available_slots" no_args)) call_uuid start
           [("type", JStr "response.function_call_arguments.done");
            ("name", JStr "get_available_slots");
            ("arguments", JStr (dumps no_args));
            ("item_id", JStr "item_7"); ("call_id", JStr "call_7")]
           (dumps no_args) no_args);
    first [reflexivity | split; reflexivity].
Defined.

Lemma role_captured_once_witness :
  registrations (exec (receive_from_openai
                         (dumps (transcription_completed "I am a Contractor")) call_uuid)
                   start)
  = [DirectoryRegister "+15550100" "contractor"].
Proof.
  apply (role_captured_once
           (dumps (transcription_completed "I am a Contractor")) call_uuid start
           [("type", JStr "conversation.item.input_audio_transcription.completed");
            ("item_id", JStr "item_2"); ("transcript", JStr "I am a Contractor")]
           (JStr "item_2") "I am a Contractor" "contractor" new_caller);
    first [reflexivity | split; reflexivity].
Defined.

Lemma fragments_accumulate_in_order_witness :
  exists s',
    call_data (exec (receive_from_openai (dumps (transcription_delta "B")) call_uuid)
                 (exec (receive_from_openai (dumps (transcription_delta "A")) call_uuid)
                    start)) !! call_uuid = Some s'
    /\ fragment_text (JStr "item_2") s' = JStr "AB".
Proof.
  apply (proj1 fragments_accumulate_in_order
           (dumps (transcription_delta "A")) (dumps (transcription_delta "B"))
           call_uuid start
           [("type", JStr "conversation.item.input_audio_transcription.delta");
            ("item_id", JStr "item_2"); ("delta", JStr "A")]
           [("type", JStr "conversation.item.input_audio_transcription.delta");
            ("item_id", JStr "item_2"); ("delta", JStr "B")]
           (JStr "item_2") "A" "B" "" new_caller);
    first [reflexivity | split; reflexivity].
Defined.

Lemma stored_email_only_on_success_witness :
  calls (exec (@receive_from_openai codec directory_pending
                 (dumps (tool_call "check_slot_availability" check_args)) call_uuid)
           (start_with pending_caller))
  = [CheckSlot slot; BookSlot slot placeholder].
Proof.
  apply (proj1 (proj2 (proj2 (@stored_email_only_on_success codec directory_pending)))
           (dumps (tool_call "check_slot_availability" check_args)) call_uuid
           (start_with pending_caller)
           [("type", JStr "response.function_call_arguments.done");
            ("name", JStr "check_slot_availability");
            ("arguments", JStr (dumps check_args));
            ("item_id", JStr "item_7"); ("call_id", JStr "call_7")]
           (dumps check_args) [("proposed_time", slot)] slot pending_caller);
    first [reflexivity | split; reflexivity | idtac].
  right. exists [("status", JStr "incomplete");
                 ("message", JStr "Registration incomplete. Please fill up the registration form.");
                 ("data", pending_row)], (JStr "incomplete").
  split; [reflexivity|]. split; [reflexivity|]. discriminate.
Defined.

(** C6, as stated, fails: when the directory cannot be reached the first
    registration ends in [error], the role stays undeclared, and a later
    transcription naming a role registers again. *)
Lemma failed_registration_is_retried :
  registrations
    (exec (@receive_from_openai codec directory_down
             (dumps (transcription_completed "a customer, actually")) call_uuid)
       (exec (@receive_from_openai codec directory_down
                (dumps (transcription_completed "I am a Contractor")) call_uuid)
          start))
  = [DirectoryRegister "+15550100" "contractor";
     DirectoryRegister "+15550100" "customer"].
Proof. reflexivity. Qed.



End Witnesses.

(** ** The life of a call *)

#[export] Instance Phase_view u n m : ViewOnly (Phase u n m).
Proof.
  intros w w' Hd Hc [HL | (n' & m' & HG & Hn & Hm)].
  - left. now apply (view_only w).
  - right. exists n', m'. split; [now apply (view_only w) | lia].
Qed.

(** Every clause of a [try] in turn. *)
Ltac each_handler tac :=
  repeat (apply List.Forall_cons; [intros ?; cbn [snd]; tac | ]); apply List.Forall_nil.

Section Life.
Context `{Codec} `{Collaborators}.

Lemma cleanup_bounded n m u : inv (Bounded n m) (cleanup u).
Proof. inv_auto calls_side. Qed.

(** One run of [after_call_hangup] asks for at most one summary and one
    delivery. *)
Lemma after_call_hangup_bound n m u :
  hoare (Bounded n m) (after_call_hangup u) (Bounded (S n) (S m)).
Proof.
  intros w Hb. destruct (call_data w !! u) as [s|] eqn:Hs.
  - rewrite (after_call_hangup_live u w s Hs).
    apply cleanup_bounded.
    apply (hoare_try_except (Bounded n m) (Bounded (S n) (S m)));
      [apply post_call_bound | intros e; apply inv_logger; exact _ |].
    now apply (view_only w).
  - rewrite (after_call_hangup_gone u w Hs).
    apply (view_only w); [reflexivity..|]. unfold Bounded in *. lia.
Qed.

Lemma after_call_hangup_keeps_gone u n m : inv (Gone u n m) (after_call_hangup u).
Proof.
  intros w HG. rewrite (after_call_hangup_gone u w (proj1 HG)).
  now apply (view_only w).
Qed.

Lemma after_call_hangup_ends u n m :
  hoare (Live u n m) (after_call_hangup u) (Phase u n m).
Proof.
  intros w (Hs & Hn & Hm). right.
  pose proof (after_call_hangup_bound n m u w) as Hb.
  unfold Bounded in Hb. destruct Hb as [Hb1 Hb2]; [lia|].
  exists (summaries (exec (after_call_hangup u) w)),
         (deliveries (exec (after_call_hangup u) w)).
  split; [|lia]. split; [apply after_call_hangup_absent | split; reflexivity].
Qed.

Lemma after_call_hangup_phase u n m : inv (Phase u n m) (after_call_hangup u).
Proof.
  intros w [HL | (n' & m' & HG & Hn & Hm)].
  - now apply after_call_hangup_ends.
  - right. exists n', m'. split; [now apply after_call_hangup_keeps_gone | lia].
Qed.

Lemma live_phase u n m w : Live u n m w -> Phase u n m w.
Proof. now left. Qed.

(** A step of the call, with the session gone: it stays gone, and no
    summary or delivery is made. *)
Lemma step_keeps_gone u n m a : inv (Gone u n m) (step u a).
Proof.
  pose proof (after_call_hangup_keeps_gone u n m) as Hh.
  destruct a as [r|r]; cbn [step].
  - unfold handle_message. apply inv_try_handlers.
    + cbn [openai_loop]. inv_auto calls_side.
    + each_handler ltac:(repeat first [ exact Hh | inv_step calls_side ]).
  - unfold receive_from_plivo. apply inv_try_handlers.
    + cbn [plivo_loop]. repeat first [ exact Hh | inv_step calls_side ].
    + each_handler ltac:(repeat first [ exact Hh | inv_step calls_side ]).
Qed.

(** A step of the call, with the session there: nothing is summarized or
    delivered while the session stays, and at most one summary and one
    delivery are made when it goes. *)
Lemma step_phase u n m a : hoare (Live u n m) (step u a) (Phase u n m).
Proof.
  pose proof (after_call_hangup_phase u n m) as Hh.
  destruct a as [r|r]; cbn [step].
  - unfold handle_message.
    apply hoare_try_handlers with (R := Live u n m); [|apply live_phase|].
    + cbn [openai_loop].
      change (inv (Live u n m)
                (let* message := receive r in
                 receive_from_openai message u ;; ret Waiting)).
      inv_auto calls_side.
    + each_handler ltac:(
        (apply hoare_bind with (R := Live u n m);
         [apply inv_logger; exact _ | apply live_phase | intros _]);
        (apply hoare_bind with (R := Phase u n m);
         [apply after_call_hangup_ends | trivial | intros _]);
        apply inv_ret).
  - intros w HL. apply live_phase in HL. revert w HL.
    change (inv (Phase u n m) (receive_from_plivo [r] u)).
    unfold receive_from_plivo. apply inv_try_handlers.
    + cbn [plivo_loop]. repeat first [ exact Hh | inv_step calls_side ].
    + each_handler ltac:(repeat first [ exact Hh | inv_step calls_side ]).
Qed.

End Life.
